(** * glyphDJ: the metadata encoding pipeline of [app.py]

    A shallow embedding of the text pipeline of [app.py] (CSV normaliser,
    radix-64 chunk encoder, ffmetadata escaper and document builder) and of
    the temporary-file discipline of the [/embed] handler, with the
    properties of the specification proved or refuted on it.

    Conventions.
    - A Python [str] is a list of Unicode code points ([N]).
    - A Python [bytes] is a list of [Byte.byte].
    - Code that can raise returns [option] (pure part) or runs in the
      state-and-exception monad [M] (handler part). *)

From Stdlib Require Import NArith ZArith List Strings.String Strings.Ascii Strings.Byte.
From Stdlib Require Import Lia Bool Arith.
From stdpp Require Import base decidable gmap sets.
Import ListNotations.
Local Open Scope N_scope.

(* ================================================================== *)
(** * Python values *)
(* ================================================================== *)

Abbreviation char := N (only parsing).
Abbreviation str := (list N) (only parsing).
Abbreviation bytes := (list byte) (only parsing).

(** A string literal of the development, as a Python [str]. *)
Definition py (s : string) : str := map N_of_ascii (list_ascii_of_string s).

(** A bytes literal given by its byte values; out-of-range values do not
    occur in the literals below. *)
Definition bytes_of (l : list N) : bytes :=
  map (fun n => match Byte.of_N n with Some b => b | None => x00 end) l.

Definition COMMA : char := 44.
Definition SPACE : char := 32.
Definition SEMICOLON : char := 59.
Definition HASH : char := 35.

Definition LF : char := 10.
Definition CR : char := 13.
Definition TAB : char := 9.
Definition BACKSLASH : char := 92.
Definition EQUALS : char := 61.

Module Py.

(** [s == t] *)
Fixpoint eqb (s t : str) : bool :=
  match s, t with
  | [], [] => true
  | a :: s', b :: t' => N.eqb a b && eqb s' t'
  | _, _ => false
  end.

(** [c in chars] for a one-character [c]. *)
Definition mem (c : char) (chars : str) : bool := existsb (N.eqb c) chars.

(** [sep.join(parts)] *)
Fixpoint join (sep : str) (parts : list str) : str :=
  match parts with
  | [] => []
  | p :: ps =>
      match ps with
      | [] => p
      | _ :: _ => p ++ sep ++ join sep ps
      end
  end.

(** [s.rstrip(chars)]: drops the longest suffix made of characters of
    [chars]. *)
Fixpoint rstrip (chars : str) (s : str) : str :=
  match s with
  | [] => []
  | c :: s' =>
      match rstrip chars s' with
      | [] => if mem c chars then [] else [c]
      | r => c :: r
      end
  end.

(** [s[i:j]] for [0 <= i]; indices beyond the end are clamped, as in
    Python. *)
Definition slice {A} (s : list A) (i j : nat) : list A :=
  firstn (j - i) (skipn i s).

(** [range(start, stop, step)] for a positive [step]. *)
Definition range (start stop step : nat) : list nat :=
  map (fun k => (start + k * step)%nat)
      (seq 0 (((stop - start) + (step - 1)) / step)%nat).

(** [s.startswith(p)] *)
Fixpoint startswith (p s : str) : bool :=
  match p, s with
  | [], _ => true
  | _ :: _, [] => false
  | a :: p', c :: s' => N.eqb a c && startswith p' s'
  end.

(** [s.replace(old, new)] for a non-empty [old]: the occurrences of
    [old] are found from the left and do not overlap.  [skip] counts
    the characters of a matched occurrence that are still to be passed
    over. *)
Fixpoint replace_from (old new : str) (skip : nat) (s : str) : str :=
  match s with
  | [] => []
  | c :: s' =>
      match skip with
      | S k => replace_from old new k s'
      | O =>
          if startswith old s
          then new ++ replace_from old new (length old - 1) s'
          else c :: replace_from old new 0 s'
      end
  end.

Definition replace (old new : str) (s : str) : str :=
  replace_from old new 0 s.

(** The line boundaries of [str.splitlines]. *)
Definition is_linebreak (c : char) : bool :=
  (c =? 10) || (c =? 13) || (c =? 11) || (c =? 12)
  || (c =? 28) || (c =? 29) || (c =? 30)
  || (c =? 133) || (c =? 8232) || (c =? 8233).

(** [s.splitlines()]: the lines of [s] without their terminators; a
    carriage return followed by a line feed is one terminator, and a
    terminator at the very end opens no further line. *)
Fixpoint splitlines (s : str) : list str :=
  match s with
  | [] => []
  | c :: s' =>
      if is_linebreak c then
        match s' with
        | d :: s'' =>
            if (c =? 13) && (d =? 10)
            then [] :: splitlines s''
            else [] :: splitlines s'
        | [] => [] :: splitlines s'
        end
      else
        match splitlines s' with
        | [] => [[c]]
        | l :: ls => (c :: l) :: ls
        end
  end.

(** [s.split(sep)] for a one-character [sep]. *)
Fixpoint split (sep : char) (s : str) : list str :=
  match s with
  | [] => [[]]
  | c :: s' =>
      if c =? sep then [] :: split sep s'
      else match split sep s' with
           | [] => [[c]]
           | l :: ls => (c :: l) :: ls
           end
  end.

(** The low eight bits of a number, as a byte. *)
Definition byte_of_N (n : N) : byte :=
  match Byte.of_N (n mod 256) with Some b => b | None => x00 end.

(** [c.encode("utf-8")] for one code point: surrogates (and numbers
    that are no code point) raise. *)
Definition encode_utf8_char (c : char) : option bytes :=
  if c <? 128 then Some [byte_of_N c]
  else if c <? 2048 then
    Some [byte_of_N (N.lor 192 (N.shiftr c 6));
          byte_of_N (N.lor 128 (N.land c 63))]
  else if c <? 65536 then
    if (55296 <=? c) && (c <=? 57343) then None
    else Some [byte_of_N (N.lor 224 (N.shiftr c 12));
               byte_of_N (N.lor 128 (N.land (N.shiftr c 6) 63));
               byte_of_N (N.lor 128 (N.land c 63))]
  else if c <? 1114112 then
    Some [byte_of_N (N.lor 240 (N.shiftr c 18));
          byte_of_N (N.lor 128 (N.land (N.shiftr c 12) 63));
          byte_of_N (N.lor 128 (N.land (N.shiftr c 6) 63));
          byte_of_N (N.lor 128 (N.land c 63))]
  else None.

(** [s.encode("utf-8")] *)
Fixpoint encode_utf8 (s : str) : option bytes :=
  match s with
  | [] => Some []
  | c :: s' =>
      match encode_utf8_char c, encode_utf8 s' with
      | Some b, Some bs => Some (b ++ bs)
      | _, _ => None
      end
  end.

(** [x or d] for an optional string [x]: [None] and the empty string
    are falsy. *)
Definition or_else (x : option str) (d : str) : str :=
  match x with
  | Some (c :: s) => c :: s
  | Some [] | None => d
  end.

(** [b.decode("ascii")]: raises on a byte above 0x7f. *)
Fixpoint decode_ascii (b : bytes) : option str :=
  match b with
  | [] => Some []
  | x :: b' =>
      if Byte.to_N x <? 128
      then match decode_ascii b' with
           | Some s => Some (Byte.to_N x :: s)
           | None => None
           end
      else None
  end.

End Py.

(* ================================================================== *)
(** * base64 (the standard alphabet of RFC 4648, as [base64.b64encode]) *)
(* ================================================================== *)

Module Base64.

Definition alphabet : list byte :=
  map byte_of_ascii (list_ascii_of_string
    "ABCDEFGHIJKLMNOPQRSTUVWXYZabcdefghijklmnopqrstuvwxyz0123456789+/").

Definition pad : byte := byte_of_ascii "=".

(** The character of a 6-bit value. *)
Definition b64char (i : N) : byte := nth (N.to_nat i) alphabet pad.

(** The four 6-bit values of a full 3-byte group. *)
Definition sextet0 (x : N) : N := N.shiftr x 2.
Definition sextet1 (x y : N) : N :=
  N.lor (N.shiftl (N.land x 3) 4) (N.shiftr y 4).
Definition sextet2 (y z : N) : N :=
  N.lor (N.shiftl (N.land y 15) 2) (N.shiftr z 6).
Definition sextet3 (z : N) : N := N.land z 63.

Definition enc3 (a b c : byte) : list byte :=
  let x := Byte.to_N a in
  let y := Byte.to_N b in
  let z := Byte.to_N c in
  [b64char (sextet0 x); b64char (sextet1 x y);
   b64char (sextet2 y z); b64char (sextet3 z)].

Definition enc2 (a b : byte) : list byte :=
  let x := Byte.to_N a in
  let y := Byte.to_N b in
  [b64char (sextet0 x); b64char (sextet1 x y); b64char (sextet2 y 0); pad].

Definition enc1 (a : byte) : list byte :=
  let x := Byte.to_N a in
  [b64char (sextet0 x); b64char (sextet1 x 0); pad; pad].

(** [base64.b64encode(raw_bytes)] *)
Fixpoint b64encode (bs : bytes) : bytes :=
  match bs with
  | [] => []
  | a :: bs1 =>
      match bs1 with
      | [] => enc1 a
      | b :: bs2 =>
          match bs2 with
          | [] => enc2 a b
          | c :: rest => enc3 a b c ++ b64encode rest
          end
      end
  end.

(** ** Decoding ([base64.b64decode] on well-formed input) *)

(** The 6-bit value of an alphabet character. *)
Definition b64index (c : char) : option N :=
  if (65 <=? c) && (c <=? 90) then Some (c - 65)
  else if (97 <=? c) && (c <=? 122) then Some (c - 71)
  else if (48 <=? c) && (c <=? 57) then Some (c + 4)
  else if c =? 43 then Some 62
  else if c =? 47 then Some 63
  else None.

Definition octet0 (s0 s1 : N) : N :=
  N.land (N.lor (N.shiftl s0 2) (N.shiftr s1 4)) 255.
Definition octet1 (s1 s2 : N) : N :=
  N.land (N.lor (N.shiftl s1 4) (N.shiftr s2 2)) 255.
Definition octet2 (s2 s3 : N) : N :=
  N.land (N.lor (N.shiftl s2 6) s3) 255.

(** A full group of four characters gives three bytes. *)
Definition dec4 (a b c d : char) : option bytes :=
  match b64index a, b64index b, b64index c, b64index d with
  | Some s0, Some s1, Some s2, Some s3 =>
      match Byte.of_N (octet0 s0 s1), Byte.of_N (octet1 s1 s2),
            Byte.of_N (octet2 s2 s3) with
      | Some x, Some y, Some z => Some [x; y; z]
      | _, _, _ => None
      end
  | _, _, _, _ => None
  end.

(** A final group with one padding character gives two bytes. *)
Definition dec3 (a b c : char) : option bytes :=
  match b64index a, b64index b, b64index c with
  | Some s0, Some s1, Some s2 =>
      match Byte.of_N (octet0 s0 s1), Byte.of_N (octet1 s1 s2) with
      | Some x, Some y => Some [x; y]
      | _, _ => None
      end
  | _, _, _ => None
  end.

(** A final group with two padding characters gives one byte. *)
Definition dec2 (a b : char) : option bytes :=
  match b64index a, b64index b with
  | Some s0, Some s1 =>
      match Byte.of_N (octet0 s0 s1) with
      | Some x => Some [x]
      | None => None
      end
  | _, _ => None
  end.

(** Decoding of a padded text: groups of four characters, padding only
    in the last group; anything else is rejected. *)
Fixpoint b64decode (s : str) : option bytes :=
  match s with
  | [] => Some []
  | a :: s1 =>
      match s1 with
      | b :: s2 =>
          match s2 with
          | c :: s3 =>
              match s3 with
              | d :: rest =>
                  match rest with
                  | [] =>
                      if d =? 61
                      then (if c =? 61 then dec2 a b else dec3 a b c)
                      else dec4 a b c d
                  | _ :: _ =>
                      match dec4 a b c d, b64decode rest with
                      | Some g, Some bs => Some (g ++ bs)
                      | _, _ => None
                      end
                  end
              | [] => None
              end
          | [] => None
          end
      | [] => None
      end
  end.

(** ** The encoding without its padding, and the padding alone *)

Fixpoint body (bs : bytes) : bytes :=
  match bs with
  | [] => []
  | a :: bs1 =>
      match bs1 with
      | [] => firstn 2 (enc1 a)
      | b :: bs2 =>
          match bs2 with
          | [] => firstn 3 (enc2 a b)
          | c :: rest => enc3 a b c ++ body rest
          end
      end
  end.

Fixpoint padding (bs : bytes) : bytes :=
  match bs with
  | [] => []
  | _ :: bs1 =>
      match bs1 with
      | [] => [pad; pad]
      | _ :: bs2 =>
          match bs2 with
          | [] => [pad]
          | _ :: rest => padding rest
          end
      end
  end.

(** A byte of the unpadded part: ASCII, not the padding character,
    not a newline. *)
Definition plain (b : byte) : Prop :=
  Byte.to_N b < 128 /\ Byte.to_N b <> 61 /\ Byte.to_N b <> 10.

(** ** Exhaustive checks over an initial segment of the numbers *)

Fixpoint all_below (n : nat) (P : N -> bool) : bool :=
  match n with
  | O => true
  | S k => P (N.of_nat k) && all_below k P
  end.

(** What a 6-bit value owes to its character: the character decodes
    to the value, is ASCII, and is neither the padding character nor a
    newline. *)
Definition good_char (i : N) : bool :=
  let c := Byte.to_N (b64char i) in
  match b64index c with
  | Some j => (j =? i) && (c <? 128) && negb (c =? 61) && negb (c =? 10)
  | None => false
  end.

End Base64.

(* ================================================================== *)
(** * [_b64_strip_and_chunk] *)
(* ================================================================== *)

(** [b64 = base64.b64encode(raw_bytes).decode("ascii").rstrip("=")] *)
Definition b64_stripped (raw_bytes : bytes) : option str :=
  match Py.decode_ascii (Base64.b64encode raw_bytes) with
  | Some s => Some (Py.rstrip [EQUALS] s)
  | None => None
  end.

(** [parts = [b64[i:i + 76] for i in range(0, len(b64), 76)]] *)
Definition parts_of (b64 : str) : list str :=
  map (fun i => Py.slice b64 i (i + 76)) (Py.range 0 (length b64) 76).

Definition _b64_strip_and_chunk (raw_bytes : bytes) : option str :=
  match b64_stripped raw_bytes with
  | Some b64 => Some (Py.join [LF] (parts_of b64) ++ [LF])
  | None => None
  end.

(* ================================================================== *)
(** * [_escape_ffmeta] *)
(* ================================================================== *)

Definition _escape_ffmeta (s : str) : str :=
  Py.replace [LF] [BACKSLASH; LF]
    (Py.replace [HASH] [BACKSLASH; HASH]
      (Py.replace [SEMICOLON] [BACKSLASH; SEMICOLON]
        (Py.replace [EQUALS] [BACKSLASH; EQUALS]
          (Py.replace [BACKSLASH] [BACKSLASH; BACKSLASH] s)))).

(* ================================================================== *)
(** * The ffmetadata document ([embed], lines 110-113) *)
(* ================================================================== *)

(** The items of a dict, in insertion order. *)
Definition items := list (str * str).

Definition FFMETADATA1 : str := py ";FFMETADATA1".

(** [ffmeta_lines.append(f"{k}={_escape_ffmeta(v)}")] *)
Definition append_entry (ffmeta_lines : list str) (kv : str * str) : list str :=
  ffmeta_lines ++ [fst kv ++ [EQUALS] ++ _escape_ffmeta (snd kv)].

Definition ffmeta_lines (metadata : items) : list str :=
  fold_left append_entry metadata [FFMETADATA1].

Definition ffmeta_content (metadata : items) : str :=
  Py.join [LF] (ffmeta_lines metadata) ++ [LF].

(* ================================================================== *)
(** * The CSV normaliser ([embed], lines 88-90) *)
(* ================================================================== *)

Definition CRLF : str := [CR; LF].

(** [lines = [ln.rstrip("\r\n") for ln in csv_text.splitlines()]] *)
Definition lines (csv_text : str) : list str :=
  map (Py.rstrip [CR; LF]) (Py.splitlines csv_text).

(** [norm_lines = [ln.rstrip(", \t") + "," for ln in lines]] *)
Definition norm_lines (csv_text : str) : list str :=
  map (fun ln => Py.rstrip [COMMA; SPACE; TAB] ln ++ [COMMA])
      (lines csv_text).

(** ["\r\n".join(norm_lines) + "\r\n"] *)
Definition norm_text (csv_text : str) : str :=
  Py.join CRLF (norm_lines csv_text) ++ CRLF.

(** [author_raw]: the normalised text as UTF-8 bytes. *)
Definition author_raw (csv_text : str) : option bytes :=
  Py.encode_utf8 (norm_text csv_text).

(* ================================================================== *)
(** * zlib streams (RFC 1950), as far as [embed] depends on them *)
(* ================================================================== *)

Module Zlib.

(** The Adler-32 checksum of the uncompressed data. *)
Definition adler32_step (ab : N * N) (x : byte) : N * N :=
  let a := (fst ab + Byte.to_N x) mod 65521 in
  (a, (snd ab + a) mod 65521).

Definition adler32 (data : bytes) : N :=
  let ab := fold_left adler32_step data (1, 0) in
  N.lor (N.shiftl (snd ab) 16) (fst ab).

Definition be32 (n : N) : bytes :=
  [Py.byte_of_N (N.shiftr n 24); Py.byte_of_N (N.shiftr n 16);
   Py.byte_of_N (N.shiftr n 8); Py.byte_of_N n].

(** CMF 0x78 (deflate, 32K window) and FLG 0xDA (the level bits of
    [Z_BEST_COMPRESSION], with the check bits). *)
Definition header : bytes := bytes_of [120; 218].

(** A zlib stream: the header, the deflate blocks, the checksum. *)
Definition stream (blocks : bytes) (data : bytes) : bytes :=
  header ++ blocks ++ be32 (adler32 data).

(** The deflate data for no input: one final block with fixed Huffman
    codes that holds the end-of-block code only. *)
Definition empty_blocks : bytes := bytes_of [3; 0].

(** [zlib.compress(b"", zlib.Z_BEST_COMPRESSION)] *)
Definition compress_empty : bytes := stream empty_blocks [].

(** The deflate data of one final stored block (for fewer than 65536
    bytes): the simplest valid stream for any data, used where only
    some compressor is needed. *)
Definition stored_block (data : bytes) : bytes :=
  let n := N.of_nat (length data) in
  [Py.byte_of_N 1;
   Py.byte_of_N n; Py.byte_of_N (N.shiftr n 8);
   Py.byte_of_N (N.lxor n 65535);
   Py.byte_of_N (N.shiftr (N.lxor n 65535) 8)]
  ++ data.

Definition compress_stored (data : bytes) : bytes :=
  match data with
  | [] => compress_empty
  | _ :: _ => stream (stored_block data) data
  end.

End Zlib.

(* ================================================================== *)
(** * The tags of [embed] (lines 51 and 100-107) *)
(* ================================================================== *)

(** [title = request.form.get("title") or "Glyph"] *)
Definition title_of (form_title : option str) : str :=
  Py.or_else form_title (py "Glyph").

(** The items of the [metadata] dict, in insertion order. *)
Definition metadata_of (title author_b64 custom1_b64 : str) : items :=
  [ (py "TITLE", title);
    (py "ALBUM", py "Glyph Tools");
    (py "AUTHOR", author_b64);
    (py "COMPOSER", py "v1-Pacman Glyph Composer");
    (py "CUSTOM1", custom1_b64);
    (py "CUSTOM2", py "26cols") ].

(** [d[k]] on the items of a dict. *)
Fixpoint lookup_item (k : str) (d : items) : option str :=
  match d with
  | [] => None
  | (k', v) :: d' => if Py.eqb k k' then Some v else lookup_item k d'
  end.

(* ================================================================== *)
(** * The [/embed] handler and its temporary files *)
(* ================================================================== *)

(** The part of the machine the handler changes: the temporary files
    that exist, and the supply of fresh names of [tempfile]. *)
Record world := World { files : gset nat; fresh : nat }.

Inductive res (A : Type) : Type :=
| Ok (a : A)
| Exc (e : str).
Arguments Ok {A} a.
Arguments Exc {A} e.

(** Computations that read and change the world and may raise. *)
Definition M (A : Type) : Type := world -> res A * world.

Definition ret {A} (a : A) : M A := fun w => (Ok a, w).

Definition raise {A} (e : str) : M A := fun w => (Exc e, w).

Definition bind {A B} (m : M A) (k : A -> M B) : M B :=
  fun w =>
    match m w with
    | (Ok a, w') => k a w'
    | (Exc e, w') => (Exc e, w')
    end.

Notation "'let*' x ':=' m 'in' k" := (bind m (fun x => k))
  (at level 10, x name, m at level 100, k at level 200).
Notation "'run' m 'in' k" := (bind m (fun _ => k))
  (at level 10, m at level 100, k at level 200).

(** [try: body / except Exception as e: handler e] *)
Definition try_except {A} (body : M A) (handler : str -> M A) : M A :=
  fun w =>
    match body w with
    | (Ok a, w') => (Ok a, w')
    | (Exc e, w') => handler e w'
    end.

(** [try: body / finally: fin] *)
Definition try_finally {A} (body : M A) (fin : M unit) : M A :=
  fun w =>
    match body w with
    | (r, w') =>
        match fin w' with
        | (Ok _, w'') => (r, w'')
        | (Exc e, w'') => (Exc e, w'')
        end
    end.

(** An optional value whose absence is an exception. *)
Definition or_raise {A} (x : option A) (e : str) : M A :=
  match x with
  | Some a => ret a
  | None => raise e
  end.

(** [tempfile.NamedTemporaryFile(delete=False, suffix=...)] followed by
    [close()]: the call raises (no room, no permission, a suffix that
    makes the file name too long) and creates nothing, or it makes a new
    file under a fresh name, which stays.  [raises] is the outcome of
    the call. *)
Definition NamedTemporaryFile (raises : option str) : M nat :=
  fun w =>
    match raises with
    | Some e => (Exc e, w)
    | None => (Ok (fresh w),
               World ({[ fresh w ]} ∪ files w) (S (fresh w)))
    end.

(** [os.path.exists(p)] *)
Definition path_exists (p : nat) : M bool :=
  fun w => (Ok (bool_decide (p ∈ files w)), w).

(** [os.unlink(p)] *)
Definition unlink (p : nat) : M unit :=
  fun w =>
    if bool_decide (p ∈ files w)
    then (Ok tt, World (files w ∖ {[ p ]}) (fresh w))
    else (Exc (py "FileNotFoundError"), w).

(** What the handler gets from outside: the result of
    [shutil.which("ffmpeg")], library functions on file names, and the
    outcome of every call that leaves the process.  An outcome
    [Some e] of a [..._raises] field is the exception raised. *)
Record tools := Tools {
  (* [shutil.which("ffmpeg")] *)
  FFMPEG : option str;
  (* [os.path.splitext(secure_filename(.))] *)
  secure_splitext : str -> str * str;
  (* [str.lower] *)
  lower : str -> str;
  (* [tempfile.NamedTemporaryFile(delete=False, suffix=ext)], line 59,
     for the extension of the upload's name *)
  tmp_in_raises : str -> option str;
  (* [audio_file.save(tmp_in.name)] *)
  save_raises : option str;
  (* [tempfile.NamedTemporaryFile(delete=False, suffix=".ogg")],
     line 63 *)
  tmp_ogg_raises : option str;
  (* [tempfile.NamedTemporaryFile(delete=False, suffix=".ogg")],
     line 116 *)
  out_path_raises : option str;
  (* [probe.stdout.strip().lower()], or [None] when running ffprobe
     raises *)
  probe_codec : option str;
  (* [subprocess.check_call(cmd, ...)] of the transcoding *)
  check_call_raises : option str;
  (* [shutil.copyfile(tmp_in.name, tmp_ogg.name)] *)
  copyfile_raises : option str;
  (* [zlib.compress(., zlib.Z_BEST_COMPRESSION)] *)
  zlib_compress : bytes -> bytes;
  (* [subprocess.run(cmd, input=., capture_output=True)] of the tag
     injection: the exception raised, or the return code and the decoded
     error stream *)
  run_ffmpeg : bytes -> res (Z * str);
  (* [send_file(out_path.name, ...)] *)
  send_file_raises : option str
}.

Record request := Request {
  audio : option str;
  csv : option str;
  title : option str
}.

Inductive response : Type :=
| Abort (status : N) (description : str)
| SendFile (path : nat) (download_name : str).

(** A call that either raises or returns nothing. *)
Definition call (outcome : option str) : M unit :=
  match outcome with
  | Some e => raise e
  | None => ret tt
  end.

Definition transcode_to_ogg_opus (T : tools) (src dst : nat) : M unit :=
  match FFMPEG T with
  | None => raise (py "ffmpeg not found; please install ffmpeg")
  | Some _ => call (check_call_raises T)
  end.

(** The [try] block of [embed], lines 67-126. *)
Definition embed_try (T : tools) (title csv_text base ext : str)
    (tmp_in tmp_ogg : nat) : M response :=
  let codec := match probe_codec T with Some c => c | None => [] end in
  let need_transcode :=
    negb (Py.eqb codec (py "opus"))
    || negb (Py.eqb (lower T ext) (py ".ogg")) in
  run (if need_transcode
       then transcode_to_ogg_opus T tmp_in tmp_ogg
       else call (copyfile_raises T)) in
  let work_path := tmp_ogg in
  let* raw := or_raise (author_raw csv_text) (py "UnicodeEncodeError") in
  let custom1_raw : bytes := [] in
  let* author_b64 := or_raise (_b64_strip_and_chunk (zlib_compress T raw))
                       (py "UnicodeDecodeError") in
  let* custom1_b64 := or_raise
                        (_b64_strip_and_chunk (zlib_compress T custom1_raw))
                        (py "UnicodeDecodeError") in
  let metadata := metadata_of title author_b64 custom1_b64 in
  let content := ffmeta_content metadata in
  let* out_path := NamedTemporaryFile (out_path_raises T) in
  let* input := or_raise (Py.encode_utf8 content) (py "UnicodeEncodeError") in
  match FFMPEG T with
  | None => raise (py "TypeError")
  | Some _ =>
      match run_ffmpeg T input with
      | Exc e => raise e
      | Ok (returncode, stderr) =>
          if negb (returncode =? 0)%Z
          then raise (py "ffmpeg metadata write failed: " ++ stderr)
          else
            run call (send_file_raises T) in
            ret (SendFile out_path (base ++ py "_glyphed.ogg"))
      end
  end.

(** The [finally] block of [embed], lines 129-135. *)
Definition embed_finally (tmp_in : nat) : M unit :=
  try_except
    (let* b := path_exists tmp_in in
     if b then unlink tmp_in else ret tt)
    (fun _ => ret tt).

Definition embed (T : tools) (req : request) : M response :=
  let title := title_of (title req) in
  match audio req, csv req with
  | Some (c :: name), Some csv_text =>
      let filename := Py.or_else (Some (c :: name)) (py "input.ogg") in
      let (base, ext) := secure_splitext T filename in
      let* tmp_in := NamedTemporaryFile (tmp_in_raises T ext) in
      run call (save_raises T) in
      let* tmp_ogg := NamedTemporaryFile (tmp_ogg_raises T) in
      try_finally
        (try_except
           (embed_try T title csv_text base ext tmp_in tmp_ogg)
           (fun e => ret (Abort 500 (py "Embed failed: " ++ e))))
        (embed_finally tmp_in)
  | _, _ => ret (Abort 400 (py "Missing audio file or csv data"))
  end.

(** The temporary files a run of the handler created: those that exist
    afterwards or were named during the run. *)
Definition created_during (w w' : world) : list nat :=
  seq (fresh w) (fresh w' - fresh w).

(** The temporary files of a run that still exist when it ends. *)
Definition leaked (w w' : world) : list nat :=
  List.filter (fun p => bool_decide (p ∈ files w')) (created_during w w').

(** A computation that deletes no file. *)
Definition keeps_files {A} (m : M A) : Prop :=
  forall w,
    (files w ⊆ files (snd (m w))) /\ (fresh w <= fresh (snd (m w)))%nat.

(** ** Runs of the handler used as examples *)

(** A machine where every external call succeeds: ffmpeg is installed,
    the upload is Opus in an Ogg file named song.ogg. *)
Definition all_fine : tools :=
  {| FFMPEG := Some (py "/usr/bin/ffmpeg");
     secure_splitext := fun _ => (py "song", py ".ogg");
     lower := fun s => s;
     tmp_in_raises := fun _ => None;
     save_raises := None;
     tmp_ogg_raises := None;
     out_path_raises := None;
     probe_codec := Some (py "opus");
     check_call_raises := None;
     copyfile_raises := None;
     zlib_compress := Zlib.compress_stored;
     run_ffmpeg := fun _ => Ok (0%Z, []);
     send_file_raises := None |}.

(** The same machine without ffmpeg, for an upload that is not Opus. *)
Definition no_ffmpeg : tools :=
  {| FFMPEG := None;
     secure_splitext := fun _ => (py "song", py ".mp3");
     lower := fun s => s;
     tmp_in_raises := fun _ => None;
     save_raises := None;
     tmp_ogg_raises := None;
     out_path_raises := None;
     probe_codec := Some (py "mp3");
     check_call_raises := None;
     copyfile_raises := None;
     zlib_compress := Zlib.compress_stored;
     run_ffmpeg := fun _ => Ok (0%Z, []);
     send_file_raises := None |}.

(** A machine where saving the upload fails. *)
Definition save_fails : tools :=
  {| FFMPEG := Some (py "/usr/bin/ffmpeg");
     secure_splitext := fun _ => (py "song", py ".ogg");
     lower := fun s => s;
     tmp_in_raises := fun _ => None;
     save_raises := Some (py "OSError");
     tmp_ogg_raises := None;
     out_path_raises := None;
     probe_codec := Some (py "opus");
     check_call_raises := None;
     copyfile_raises := None;
     zlib_compress := Zlib.compress_stored;
     run_ffmpeg := fun _ => Ok (0%Z, []);
     send_file_raises := None |}.

(** A machine on which a suffix of more than 244 characters makes the
    name of a temporary file too long, and an upload whose name has
    such an extension. *)
Definition name_too_long : tools :=
  {| FFMPEG := Some (py "/usr/bin/ffmpeg");
     secure_splitext := fun _ => (py "song", 46 :: repeat 103 300);
     lower := fun s => s;
     tmp_in_raises :=
       fun ext => if (244 <? length ext)%nat
                  then Some (py "OSError") else None;
     save_raises := None;
     tmp_ogg_raises := None;
     out_path_raises := None;
     probe_codec := Some (py "opus");
     check_call_raises := None;
     copyfile_raises := None;
     zlib_compress := Zlib.compress_stored;
     run_ffmpeg := fun _ => Ok (0%Z, []);
     send_file_raises := None |}.

Definition a_request : request :=
  {| audio := Some (py "song.ogg");
     csv := Some (py "1,2,3");
     title := None |}.

Definition empty_world : world := World ∅ 0.

(* ================================================================== *)
(** * The specification's wording, as definitions of its own *)
(* ================================================================== *)

Module Spec.

(** Removal of every trailing character that satisfies [p]. *)
Fixpoint drop_while (p : char -> bool) (s : str) : str :=
  match s with
  | [] => []
  | c :: s' => if p c then drop_while p s' else s
  end.

Definition strip_trailing (p : char -> bool) (s : str) : str :=
  rev (drop_while p (rev s)).

(** Consecutive substrings of [n] characters, the last one possibly
    shorter; no substring for the empty text. *)
Fixpoint chunks_upto (fuel n : nat) (s : str) : list str :=
  match fuel with
  | O => []
  | S fuel' =>
      match s with
      | [] => []
      | _ :: _ => firstn n s :: chunks_upto fuel' n (skipn n s)
      end
  end.

Definition chunks (n : nat) (s : str) : list str :=
  chunks_upto (length s) n s.

(** The encoded block of section 4.3. *)
Definition chunk_encode (B : bytes) : str :=
  Py.join [LF]
    (chunks 76
       (strip_trailing (N.eqb EQUALS)
          (map Byte.to_N (Base64.b64encode B))))
  ++ [LF].

(** Every [old] character becomes the text [new]. *)
Definition each (old : char) (new : str) (s : str) : str :=
  flat_map (fun c => if c =? old then new else [c]) s.

(** The five replacements of section 4.4, in their order. *)
Definition escape (s : str) : str :=
  each LF [BACKSLASH; LF]
    (each HASH [BACKSLASH; HASH]
      (each SEMICOLON [BACKSLASH; SEMICOLON]
        (each EQUALS [BACKSLASH; EQUALS]
          (each BACKSLASH [BACKSLASH; BACKSLASH] s)))).

(** One pass over the text that puts a backslash before each of the
    five special characters. *)
Definition special (c : char) : bool :=
  (c =? BACKSLASH) || (c =? EQUALS) || (c =? SEMICOLON)
  || (c =? HASH) || (c =? LF).

Definition escape_one_pass (s : str) : str :=
  flat_map (fun c => if special c then [BACKSLASH; c] else [c]) s.

(** The document of section 4.5: the header line and one line per
    entry, every line ended by a newline. *)
Definition entry_line (kv : str * str) : str :=
  fst kv ++ [EQUALS] ++ _escape_ffmeta (snd kv).

Definition document (entries : items) : str :=
  concat (map (fun l => l ++ [LF])
              (FFMETADATA1 :: map entry_line entries)).

(** The normaliser of section 4.1. *)
Definition strippable (c : char) : bool :=
  (c =? COMMA) || (c =? SPACE) || (c =? TAB).

Definition normalize_line (l : str) : str :=
  strip_trailing strippable l ++ [COMMA].

Definition normalize (T : str) : str :=
  Py.join CRLF (map normalize_line (Py.splitlines T)) ++ CRLF.

(** The same text with every line, the last one too, ended by CRLF. *)
Definition terminated (ls : list str) : str :=
  concat (map (fun l => l ++ CRLF) ls).

(** A line that ends with a comma which no comma precedes. *)
Definition one_trailing_comma (l : str) : bool :=
  match rev l with
  | c :: r =>
      (c =? COMMA)
      && negb (match r with d :: _ => d =? COMMA | [] => false end)
  | [] => false
  end.

(** A line that ends with a comma which no comma, space or tab
    precedes. *)
Definition canonical_line (l : str) : bool :=
  match rev l with
  | c :: r =>
      (c =? COMMA)
      && negb (match r with d :: _ => strippable d | [] => false end)
  | [] => false
  end.

(** Normalised form as section 3 words it: every line ends with
    exactly one trailing comma and one CRLF terminator, the last line
    included. *)
Definition normalized_form (T : str) : Prop :=
  T = terminated (Py.splitlines T)
  /\ Forall (fun l => one_trailing_comma l = true) (Py.splitlines T).

(** Normalised form as the normaliser produces it: at least one line,
    and before the trailing comma of a line neither comma, space nor
    tab. *)
Definition canonical_form (T : str) : Prop :=
  T <> []
  /\ T = terminated (Py.splitlines T)
  /\ Forall (fun l => canonical_line l = true) (Py.splitlines T).

(** Removal of the newlines of a block, and the padding that makes
    its length a multiple of four. *)
Definition remove_newlines (s : str) : str :=
  List.filter (fun c => negb (c =? LF)) s.

Definition restore_padding (s : str) : str :=
  s ++ repeat EQUALS ((4 - length s mod 4) mod 4)%nat.

(** A text without a line terminator. *)
Definition nobreak (l : str) : Prop :=
  Forall (fun c => Py.is_linebreak c = false) l.

(** The lines of a block: the texts between its newlines. *)
Definition lines_of (s : str) : list str := Py.split LF s.

End Spec.

(* ================================================================== *)
(** * The reading side: what a consumer of the output does *)
(* ================================================================== *)

Module Reader.

(** Removal of the escaping: a backslash is dropped and the character
    after it is taken as it is; a backslash at the very end is dropped. *)
Fixpoint unescape (s : str) : str :=
  match s with
  | [] => []
  | c :: s' =>
      if c =? BACKSLASH
      then match s' with
           | d :: s'' => d :: unescape s''
           | [] => []
           end
      else c :: unescape s'
  end.

(** The number of characters the escaper puts a backslash before. *)
Definition count_special (s : str) : nat :=
  length (List.filter Spec.special s).

(** [c] goes to the front of the first line. *)
Definition push (c : char) (ls : list str) : list str :=
  match ls with
  | [] => [[c]]
  | l :: ls' => (c :: l) :: ls'
  end.

(** The lines of a document: it is cut at the newlines that no backslash
    escapes; a backslash and the character after it stay in their line. *)
Fixpoint logical_lines (s : str) : list str :=
  match s with
  | [] => [[]]
  | c :: s' =>
      if c =? BACKSLASH
      then match s' with
           | d :: s'' => push c (push d (logical_lines s''))
           | [] => [[c]]
           end
      else if c =? LF then [] :: logical_lines s'
      else push c (logical_lines s')
  end.

(** A key that reads back as it is written: no backslash, no newline
    and no equals sign in it. *)
Definition plain_key (k : str) : Prop :=
  Forall (fun c => c <> BACKSLASH /\ c <> LF /\ c <> EQUALS) k.

(** A line is cut at its first equals sign. *)
Fixpoint split_key (s : str) : str * str :=
  match s with
  | [] => ([], [])
  | c :: s' =>
      if c =? EQUALS then ([], s')
      else let (k, v) := split_key s' in (c :: k, v)
  end.

(** The pair of an entry line: the key, and the value without its
    escaping. *)
Definition parse_entry (line : str) : str * str :=
  let (k, v) := split_key line in (k, unescape v).

(** The pairs of a document: of its lines, the first (the header) and
    the last (the empty text after the final newline) hold no pair. *)
Definition read_document (doc : str) : items :=
  map parse_entry (removelast (tl (logical_lines doc))).

(** A character of the base64 alphabet. *)
Definition in_alphabet (c : char) : bool :=
  match Base64.b64index c with
  | Some _ => true
  | None => false
  end.

(** The character of a 6-bit value is none of the characters the
    escaper changes. *)
Definition unescaped_char (i : N) : bool :=
  negb (Spec.special (Byte.to_N (Base64.b64char i))).

(** A code point UTF-8 can encode: not a surrogate, below 0x110000. *)
Definition is_scalar (c : char) : bool :=
  (c <? 55296) || ((57343 <? c) && (c <? 1114112)).

(** Lines, each ended by the terminator [term]. *)
Definition terminated_by (term : str) (ls : list str) : str :=
  concat (map (fun l => l ++ term) ls).

(** Decoding of a block: without its newlines, with its padding. *)
Definition decode_block (block : str) : option bytes :=
  Base64.b64decode (Spec.restore_padding (Spec.remove_newlines block)).

(** [need_transcode] of [embed], line 79. *)
Definition need_transcode (T : tools) (ext : str) : bool :=
  negb (Py.eqb (match probe_codec T with Some c => c | None => [] end)
               (py "opus"))
  || negb (Py.eqb (lower T ext) (py ".ogg")).

(** The answer of the handler once the tag-writing ffmpeg has run
    (lines 122-128), from the outcome [ran] of that run: a run that
    raises, a return code that is not 0 and a [send_file] that raises
    are caught and answered with status 500; otherwise the output file
    is sent under the upload's base name. *)
Definition answer_after_run (T : tools) (out_path : nat) (base : str)
    (ran : res (Z * str)) : response :=
  match ran with
  | Exc e => Abort 500 (py "Embed failed: " ++ e)
  | Ok (returncode, stderr) =>
      if (returncode =? 0)%Z
      then match send_file_raises T with
           | Some e => Abort 500 (py "Embed failed: " ++ e)
           | None => SendFile out_path (base ++ py "_glyphed.ogg")
           end
      else Abort 500 (py "Embed failed: "
                      ++ (py "ffmpeg metadata write failed: " ++ stderr))
  end.

(** A request that passes the check of line 52: an audio file with a
    name, and a csv field. *)
Definition accepted (req : request) : Prop :=
  (exists c name, audio req = Some (c :: name))
  /\ (exists csv_text, csv req = Some csv_text).

End Reader.

(* ================================================================== *)
(** * Lemmas on the Python primitives *)
(* ================================================================== *)

Section PyFacts.

Lemma join_cons2 (sep p q : str) (ps : list str) :
  Py.join sep (p :: q :: ps) = p ++ sep ++ Py.join sep (q :: ps).
Proof. reflexivity. Qed.

(** Joining with a separator and adding it once more ends every part
    with the separator. *)
Lemma join_terminated (sep l : str) (ls : list str) :
  Py.join sep (l :: ls) ++ sep = concat (map (fun x => x ++ sep) (l :: ls)).
Proof.
  revert l. induction ls as [|q ls IH]; intros l.
  - simpl. now rewrite app_nil_r.
  - rewrite join_cons2, <- !app_assoc, IH.
    cbn [map concat]. now rewrite <- !app_assoc.
Qed.

Lemma rstrip_snoc (cs s : str) (c : char) :
  Py.rstrip cs (s ++ [c])
  = if Py.mem c cs then Py.rstrip cs s else s ++ [c].
Proof.
  induction s as [|a s IH].
  - simpl. now destruct (Py.mem c cs).
  - change (Py.rstrip cs ((a :: s) ++ [c]))
      with (match Py.rstrip cs (s ++ [c]) with
            | [] => if Py.mem a cs then [] else [a]
            | r => a :: r
            end).
    rewrite IH. destruct (Py.mem c cs).
    + reflexivity.
    + destruct s; reflexivity.
Qed.

Lemma strip_trailing_snoc (p : char -> bool) (s : str) (c : char) :
  Spec.strip_trailing p (s ++ [c])
  = if p c then Spec.strip_trailing p s else s ++ [c].
Proof.
  unfold Spec.strip_trailing. rewrite rev_app_distr. simpl.
  destruct (p c); [reflexivity|].
  simpl. now rewrite rev_involutive.
Qed.

(** [rstrip] removes every trailing character of the set, as the
    specification words it. *)
Lemma rstrip_strip_trailing (cs : str) (p : char -> bool) (s : str) :
  (forall c, Py.mem c cs = p c) ->
  Py.rstrip cs s = Spec.strip_trailing p s.
Proof.
  intros Hp. induction s as [|c s IH] using rev_ind; [reflexivity|].
  rewrite rstrip_snoc, strip_trailing_snoc, Hp, IH. reflexivity.
Qed.

(** What [rstrip] removes is a suffix made of characters of the set. *)
Lemma rstrip_suffix (cs s : str) :
  exists t, s = Py.rstrip cs s ++ t
            /\ Forall (fun c => Py.mem c cs = true) t.
Proof.
  induction s as [|c s IH] using rev_ind.
  - exists []. split; [reflexivity | constructor].
  - rewrite rstrip_snoc. destruct (Py.mem c cs) eqn:E.
    + destruct IH as (t & Ht & Hall). exists (t ++ [c]). split.
      * rewrite app_assoc. now rewrite <- Ht.
      * apply Forall_app. split; [assumption|]. now constructor.
    + exists []. split; [now rewrite app_nil_r | constructor].
Qed.

(** The text [rstrip] leaves does not end with a character of the
    set. *)
Lemma rstrip_last (cs s r : str) (c : char) :
  Py.rstrip cs s = r ++ [c] -> Py.mem c cs = false.
Proof.
  induction s as [|d s IH] using rev_ind.
  - simpl. intros H. now destruct r.
  - rewrite rstrip_snoc. destruct (Py.mem d cs) eqn:E; [exact IH|].
    intros H. apply app_inj_tail in H. destruct H as [_ ->]. exact E.
Qed.

(** Nothing is removed from a text that contains no character of the
    set. *)
Lemma rstrip_none (cs s : str) :
  Forall (fun c => Py.mem c cs = false) s -> Py.rstrip cs s = s.
Proof.
  induction s as [|c s IH] using rev_ind; [reflexivity|].
  intros H. apply Forall_app in H. destruct H as [_ H].
  rewrite rstrip_snoc. inversion H; subst.
  now match goal with E : Py.mem c cs = false |- _ => rewrite E end.
Qed.

Lemma replace_char_each (old : char) (new s : str) :
  Py.replace [old] new s = Spec.each old new s.
Proof.
  unfold Py.replace. induction s as [|c s IH]; [reflexivity|].
  simpl. rewrite andb_true_r, N.eqb_sym.
  destruct (c =? old); simpl; now rewrite IH.
Qed.

Lemma each_flat_map (old : char) (new : str) (f : char -> str) (s : str) :
  Spec.each old new (flat_map f s)
  = flat_map (fun c => Spec.each old new (f c)) s.
Proof.
  unfold Spec.each. induction s as [|c s IH]; [reflexivity|].
  cbn [flat_map]. rewrite flat_map_app. f_equal. exact IH.
Qed.

End PyFacts.

(* ================================================================== *)
(** * The escaper *)
(* ================================================================== *)

Section Escaper.

Lemma escape_is_spec (s : str) : _escape_ffmeta s = Spec.escape s.
Proof.
  unfold _escape_ffmeta, Spec.escape. now rewrite !replace_char_each.
Qed.

Lemma escape_char (c : char) :
  Spec.escape [c] = if Spec.special c then [BACKSLASH; c] else [c].
Proof.
  unfold Spec.escape, Spec.special, Spec.each,
    BACKSLASH, EQUALS, SEMICOLON, HASH, LF.
  destruct (N.eqb_spec c 92) as [->|H1]; [reflexivity|].
  destruct (N.eqb_spec c 61) as [->|H2]; [reflexivity|].
  destruct (N.eqb_spec c 59) as [->|H3]; [reflexivity|].
  destruct (N.eqb_spec c 35) as [->|H4]; [reflexivity|].
  destruct (N.eqb_spec c 10) as [->|H5]; [reflexivity|].
  apply N.eqb_neq in H1, H2, H3, H4, H5.
  cbn [flat_map app orb]. rewrite H1. cbn [flat_map app].
  rewrite H2. cbn [flat_map app]. rewrite H3. cbn [flat_map app].
  rewrite H4. cbn [flat_map app]. rewrite H5. reflexivity.
Qed.

Lemma escape_app (s t : str) :
  Spec.escape (s ++ t) = Spec.escape s ++ Spec.escape t.
Proof. unfold Spec.escape, Spec.each. now rewrite !flat_map_app. Qed.

(** The order of the replacements avoids double escaping: the result
    is the text with one backslash put before each backslash, equals
    sign, semicolon, hash and newline. *)
Lemma escape_one_pass (s : str) : _escape_ffmeta s = Spec.escape_one_pass s.
Proof.
  rewrite escape_is_spec. unfold Spec.escape_one_pass.
  induction s as [|c s IH]; [reflexivity|].
  change (c :: s) with ([c] ++ s) at 1.
  rewrite escape_app, escape_char, IH. reflexivity.
Qed.

(** C2, as the claim words its example: the eleven characters
    a=b;c#d\e, newline, f do not escape to a text with four
    backslashes before the e. *)
Lemma escape_scenario_D_not_four_backslashes :
  _escape_ffmeta (py "a=b;c#d\e" ++ [LF] ++ py "f")
  <> py "a\=b\;c\#d\\\\e\" ++ [LF] ++ py "f"
  /\ length (py "a=b;c#d\e" ++ [LF] ++ py "f") <> 8%nat.
Proof. split; vm_compute; discriminate. Qed.

(** C2, amended: for every text the escaper applies the five
    replacements (backslash, equals sign, semicolon, hash, newline) in
    this order, the newline becoming a backslash and a real newline;
    the eleven characters a=b;c#d\e, newline, f escape to a\=b\;c\#d,
    two backslashes, e, backslash, newline, f. *)
Theorem escape_ffmeta_five_replacements :
  (forall s : str, _escape_ffmeta s = Spec.escape s)
  /\ length (py "a=b;c#d\e" ++ [LF] ++ py "f") = 11%nat
  /\ _escape_ffmeta (py "a=b;c#d\e" ++ [LF] ++ py "f")
     = py "a\=b\;c\#d\\e\" ++ [LF] ++ py "f".
Proof.
  split; [exact escape_is_spec|]. split; vm_compute; reflexivity.
Qed.

End Escaper.

(* ================================================================== *)
(** * The document builder *)
(* ================================================================== *)

Section Builder.

Lemma fold_append_entry (metadata : items) (acc : list str) :
  fold_left append_entry metadata acc
  = acc ++ map Spec.entry_line metadata.
Proof.
  revert acc. induction metadata as [|kv metadata IH]; intros acc.
  - simpl. now rewrite app_nil_r.
  - cbn [fold_left map]. rewrite IH. unfold append_entry at 1.
    now rewrite <- app_assoc.
Qed.

Lemma ffmeta_lines_map (metadata : items) :
  ffmeta_lines metadata = FFMETADATA1 :: map Spec.entry_line metadata.
Proof. unfold ffmeta_lines. now rewrite fold_append_entry. Qed.

(** C3: the document is the header line and, for each pair in the
    given order, the line KEY=escaped value, one line per pair (no pair
    dropped, merged or moved), every line ended by one newline; the
    pair (TITLE, Glyph) alone renders as the header line and the line
    TITLE=Glyph. *)
Theorem ffmeta_content_document :
  (forall metadata : items,
      ffmeta_lines metadata = FFMETADATA1 :: map Spec.entry_line metadata
      /\ ffmeta_content metadata
         = Py.join [LF] (FFMETADATA1 :: map Spec.entry_line metadata) ++ [LF]
      /\ ffmeta_content metadata = Spec.document metadata)
  /\ ffmeta_content [(py "TITLE", py "Glyph")]
     = py ";FFMETADATA1" ++ [LF] ++ py "TITLE=Glyph" ++ [LF].
Proof.
  split; [|vm_compute; reflexivity].
  intros metadata. unfold ffmeta_content. rewrite ffmeta_lines_map.
  repeat split. apply join_terminated.
Qed.

End Builder.

(* ================================================================== *)
(** * The CSV normaliser *)
(* ================================================================== *)

Section Normaliser.

Lemma str_length_ind (P : str -> Prop) :
  (forall s : str, (forall t : str, (length t < length s)%nat -> P t) -> P s) ->
  forall s : str, P s.
Proof.
  intros step s. remember (length s) as n eqn:En.
  revert s En. induction n as [n IH] using lt_wf_ind.
  intros s ->. apply step. intros t Ht. now apply (IH (length t)).
Qed.

Lemma splitlines_cons_nobreak (c : char) (s : str) :
  Py.is_linebreak c = false ->
  Py.splitlines (c :: s)
  = match Py.splitlines s with
    | [] => [[c]]
    | l :: ls => (c :: l) :: ls
    end.
Proof. intros H. cbn [Py.splitlines]. now rewrite H. Qed.

(** No line of [splitlines] contains a line terminator. *)
Lemma splitlines_nobreak (s : str) : Forall Spec.nobreak (Py.splitlines s).
Proof.
  induction s as [s IH] using str_length_ind.
  destruct s as [|c s]; [constructor|].
  destruct (Py.is_linebreak c) eqn:Ec.
  - cbn [Py.splitlines]. rewrite Ec.
    destruct s as [|d s].
    + repeat constructor.
    + destruct ((c =? 13) && (d =? 10)).
      * constructor; [constructor|]. apply IH. simpl. lia.
      * constructor; [constructor|]. apply IH. simpl. lia.
  - rewrite splitlines_cons_nobreak by assumption.
    assert (Hs : Forall Spec.nobreak (Py.splitlines s))
      by (apply IH; simpl; lia).
    destruct (Py.splitlines s) as [|l ls].
    + repeat constructor. assumption.
    + inversion Hs; subst. constructor; [|assumption].
      now constructor.
Qed.

(** A text that is not empty has at least one line. *)
Lemma splitlines_nonempty (s : str) : s <> [] -> Py.splitlines s <> [].
Proof.
  destruct s as [|c s]; [congruence|]. intros _.
  cbn [Py.splitlines]. destruct (Py.is_linebreak c).
  - destruct s as [|d s]; [discriminate|].
    now destruct ((c =? 13) && (d =? 10)).
  - now destruct (Py.splitlines s).
Qed.

(** Lines without terminators, each ended by CRLF, split into
    themselves. *)
Lemma splitlines_line (l rest : str) :
  Spec.nobreak l ->
  Py.splitlines (l ++ CRLF ++ rest) = l :: Py.splitlines rest.
Proof.
  induction 1 as [|c l Hc Hl IH].
  - reflexivity.
  - change ((c :: l) ++ CRLF ++ rest) with (c :: (l ++ CRLF ++ rest)).
    rewrite splitlines_cons_nobreak by assumption. now rewrite IH.
Qed.

Lemma splitlines_terminated (ls : list str) :
  Forall Spec.nobreak ls -> Py.splitlines (Spec.terminated ls) = ls.
Proof.
  induction 1 as [|l ls Hl Hls IH]; [reflexivity|].
  unfold Spec.terminated in *. cbn [map concat].
  rewrite <- app_assoc, splitlines_line by assumption. now rewrite IH.
Qed.

Lemma mem_crlf_nobreak (c : char) :
  Py.is_linebreak c = false -> Py.mem c [CR; LF] = false.
Proof.
  unfold Py.is_linebreak, Py.mem, CR, LF. cbn [existsb].
  destruct (c =? 10), (c =? 13); simpl; congruence.
Qed.

(** [rstrip("\r\n")] changes no line of [splitlines]. *)
Lemma lines_splitlines (T : str) : lines T = Py.splitlines T.
Proof.
  unfold lines. pose proof (splitlines_nobreak T) as H.
  induction H as [|l ls Hl Hls IH]; [reflexivity|].
  cbn [map]. rewrite IH. f_equal. apply rstrip_none.
  eapply List.Forall_impl; [|exact Hl]. apply mem_crlf_nobreak.
Qed.

Lemma mem_strippable (c : char) :
  Py.mem c [COMMA; SPACE; TAB] = Spec.strippable c.
Proof.
  unfold Py.mem, Spec.strippable. cbn [existsb].
  now rewrite orb_false_r, orb_assoc.
Qed.

Lemma norm_lines_spec (T : str) :
  norm_lines T = map Spec.normalize_line (Py.splitlines T).
Proof.
  unfold norm_lines. rewrite lines_splitlines.
  apply map_ext. intros l. unfold Spec.normalize_line.
  now rewrite (rstrip_strip_trailing _ _ _ mem_strippable).
Qed.

Lemma norm_text_spec (T : str) : norm_text T = Spec.normalize T.
Proof. unfold norm_text, Spec.normalize. now rewrite norm_lines_spec. Qed.

(** With at least one line, the result ends every line with CRLF. *)
Lemma norm_text_terminated (T : str) :
  T <> [] ->
  norm_text T
  = Spec.terminated (map Spec.normalize_line (Py.splitlines T)).
Proof.
  intros HT. rewrite norm_text_spec. unfold Spec.normalize.
  pose proof (splitlines_nonempty T HT) as Hne.
  destruct (Py.splitlines T) as [|l ls]; [congruence|].
  cbn [map]. apply join_terminated.
Qed.

(** A processed line ends with the one comma that was appended: what
    precedes it ends with neither comma, space nor tab. *)
Lemma normalize_line_canonical (l : str) :
  Spec.canonical_line (Spec.normalize_line l) = true.
Proof.
  unfold Spec.normalize_line.
  rewrite <- (rstrip_strip_trailing _ _ _ mem_strippable).
  unfold Spec.canonical_line. rewrite rev_app_distr. cbn [rev app].
  destruct (rev (Py.rstrip [COMMA; SPACE; TAB] l)) as [|d r] eqn:E;
    [reflexivity|].
  apply (f_equal (@rev char)) in E. rewrite rev_involutive in E.
  cbn [rev] in E. apply rstrip_last in E.
  rewrite mem_strippable in E. now rewrite E.
Qed.

Lemma normalize_line_nobreak (l : str) :
  Spec.nobreak l -> Spec.nobreak (Spec.normalize_line l).
Proof.
  intros Hl. unfold Spec.normalize_line.
  rewrite <- (rstrip_strip_trailing _ _ _ mem_strippable).
  destruct (rstrip_suffix [COMMA; SPACE; TAB] l) as (t & Ht & _).
  rewrite Ht in Hl. apply Forall_app in Hl. destruct Hl as [Hl _].
  apply Forall_app. split; [exact Hl|]. now repeat constructor.
Qed.

(** A canonical line is left as it is. *)
Lemma normalize_line_fixed (l : str) :
  Spec.canonical_line l = true -> Spec.normalize_line l = l.
Proof.
  unfold Spec.canonical_line, Spec.normalize_line.
  rewrite <- (rstrip_strip_trailing _ _ _ mem_strippable).
  destruct (rev l) as [|c r] eqn:E; [discriminate|].
  apply (f_equal (@rev char)) in E. rewrite rev_involutive in E.
  cbn [rev] in E. subst l. intros H.
  apply andb_true_iff in H. destruct H as [Hc Hd].
  apply N.eqb_eq in Hc. subst c.
  rewrite rstrip_snoc. cbn [Py.mem existsb]. rewrite N.eqb_refl.
  cbn [orb]. f_equal.
  destruct r as [|d r]; [reflexivity|]. cbn [rev].
  rewrite rstrip_snoc, mem_strippable.
  apply negb_true_iff in Hd. now rewrite Hd.
Qed.

(** The canonical form is what the normaliser produces from a text
    that is not empty. *)
Lemma norm_text_canonical (T : str) :
  T <> [] -> Spec.canonical_form (norm_text T).
Proof.
  intros HT.
  assert (Hnb : Forall Spec.nobreak
                  (map Spec.normalize_line (Py.splitlines T))).
  { apply Forall_map. eapply List.Forall_impl;
      [|apply splitlines_nobreak]. apply normalize_line_nobreak. }
  pose proof (splitlines_nonempty T HT) as Hne.
  rewrite (norm_text_terminated T HT). unfold Spec.canonical_form.
  rewrite (splitlines_terminated _ Hnb). repeat split.
  - destruct (Py.splitlines T) as [|l ls]; [congruence|].
    unfold Spec.terminated, Spec.normalize_line. cbn [map concat].
    intros E. apply app_eq_nil in E. destruct E as [E _].
    apply app_eq_nil in E. destruct E as [E _].
    apply app_eq_nil in E. destruct E as [_ E]. discriminate.
  - apply Forall_map. apply List.Forall_forall. intros l _.
    apply normalize_line_canonical.
Qed.

(** A text in canonical form is left as it is. *)
Lemma norm_text_fixed (T : str) : Spec.canonical_form T -> norm_text T = T.
Proof.
  intros (HT & Hterm & Hall). rewrite (norm_text_terminated T HT).
  rewrite Hterm at 2. f_equal. clear HT Hterm.
  induction Hall as [|l ls Hl Hls IH]; [reflexivity|].
  cbn [map]. now rewrite IH, normalize_line_fixed.
Qed.

(** C4: a text that is not empty is split into its lines (at least
    one, none containing a terminator); each line loses every trailing
    comma, space and tab and gets exactly one comma; the lines are
    joined with CRLF and one CRLF follows the last, so every line of
    the result is CRLF-terminated; a,b,c gives a,b,c, CRLF and
    x, CRLF y gives x, CRLF y, CRLF. *)
Theorem csv_normalizer_nonempty (T : str) :
  T <> [] ->
  norm_text T = Spec.normalize T
  /\ norm_text T
     = Spec.terminated (map Spec.normalize_line (Py.splitlines T))
  /\ Py.splitlines T <> []
  /\ Forall Spec.nobreak (Py.splitlines T)
  /\ Forall (fun l => Spec.canonical_line l = true)
       (map Spec.normalize_line (Py.splitlines T))
  /\ norm_text (py "a,b,c") = py "a,b,c," ++ CRLF
  /\ norm_text (py "x," ++ CRLF ++ py "y")
     = py "x," ++ CRLF ++ py "y," ++ CRLF.
Proof.
  intros HT. split; [apply norm_text_spec|].
  split; [now apply norm_text_terminated|].
  split; [now apply splitlines_nonempty|].
  split; [apply splitlines_nobreak|].
  split; [|split; vm_compute; reflexivity].
  apply Forall_map. apply List.Forall_forall. intros l _.
  apply normalize_line_canonical.
Qed.

Lemma csv_normalizer_nonempty_witness :
  (py "a, b ," ++ [TAB; COMMA]) <> []
  /\ norm_text ((py "a, b ," ++ [TAB; COMMA])) = py "a, b," ++ CRLF.
Proof.
  split; [discriminate|].
  destruct (csv_normalizer_nonempty ((py "a, b ," ++ [TAB; COMMA]))) as (H & _);
    [discriminate|].
  rewrite H. vm_compute. reflexivity.
Defined.

(** C5, on the code: for the empty text the normaliser has no line to
    put a comma on and returns the two bytes CR LF, not comma CR LF;
    a text of one empty line does give comma CR LF. *)
Theorem author_raw_empty :
  author_raw [] = Some (bytes_of [13; 10])
  /\ author_raw [] <> Some (bytes_of [44; 13; 10])
  /\ author_raw [LF] = Some (bytes_of [44; 13; 10]).
Proof. repeat split; vm_compute; congruence. Qed.

(** C7, as the claim words it: a CRLF-terminated line with exactly one
    trailing comma after a space is in normalised form and is changed;
    and normalising the empty text twice differs from normalising it
    once. *)
Lemma normalized_form_not_fixed :
  (Spec.normalized_form (py "a ," ++ CRLF)
   /\ norm_text (py "a ," ++ CRLF) <> py "a ," ++ CRLF)
  /\ norm_text (norm_text []) <> norm_text [].
Proof.
  split; [split|].
  - split; [vm_compute; reflexivity|].
    vm_compute. repeat constructor.
  - vm_compute. discriminate.
  - vm_compute. discriminate.
Qed.

(** C7, amended: for every text that is not empty, normalising twice
    gives what normalising once gives, and the result is in canonical
    form (at least one line, every line CRLF-terminated and ending
    with one comma that follows no comma, space or tab); every text in
    canonical form is left as it is. *)
Theorem normalizer_idempotent (T : str) :
  T <> [] ->
  Spec.canonical_form (norm_text T)
  /\ norm_text (norm_text T) = norm_text T
  /\ (Spec.canonical_form T -> norm_text T = T).
Proof.
  intros HT. pose proof (norm_text_canonical T HT) as Hc.
  split; [exact Hc|]. split; [|apply norm_text_fixed].
  now apply norm_text_fixed.
Qed.

Lemma normalizer_idempotent_witness :
  py "x," ++ CRLF ++ py "y," ++ CRLF <> []
  /\ Spec.canonical_form (py "x," ++ CRLF ++ py "y," ++ CRLF)
  /\ norm_text (py "x," ++ CRLF ++ py "y," ++ CRLF)
     = py "x," ++ CRLF ++ py "y," ++ CRLF.
Proof.
  assert (Hne : py "x," ++ CRLF ++ py "y," ++ CRLF <> []) by discriminate.
  assert (Hc : Spec.canonical_form (py "x," ++ CRLF ++ py "y," ++ CRLF)).
  { split; [exact Hne|]. split; [vm_compute; reflexivity|].
    vm_compute. repeat constructor. }
  split; [exact Hne|]. split; [exact Hc|].
  exact (proj2 (proj2 (normalizer_idempotent _ Hne)) Hc).
Defined.

End Normaliser.

(* ================================================================== *)
(** * base64: bits, characters, padding *)
(* ================================================================== *)

Section Base64Facts.

Import Base64.

Lemma all_below_spec (n : nat) (P : N -> bool) :
  all_below n P = true -> forall x, x < N.of_nat n -> P x = true.
Proof.
  induction n as [|k IH]; intros H x Hx; [lia|].
  cbn [all_below] in H. apply andb_true_iff in H. destruct H as [Hk Hr].
  destruct (N.eq_dec x (N.of_nat k)) as [->|Hne]; [exact Hk|].
  apply IH; [exact Hr | lia].
Qed.

Lemma byte_lt_256 (b : byte) : Byte.to_N b < N.of_nat 256.
Proof. pose proof (Byte.to_N_bounded b). lia. Qed.

(** ** The bit operations, checked on every byte value *)

Lemma check_one_byte :
  all_below 256 (fun x =>
    (sextet0 x <? 64) && (sextet3 x <? 64)
    && (N.land x 3 <? 4) && (N.shiftr x 6 <? 4)) = true.
Proof. vm_compute. reflexivity. Qed.

Lemma check_two_bytes :
  all_below 256 (fun x => all_below 256 (fun y =>
    (sextet1 x y <? 64) && (sextet2 x y <? 64)
    && (octet0 (sextet0 x) (sextet1 x y) =? x)
    && (octet2 (sextet2 x y) (sextet3 y) =? y)
    && (sextet1 x y =? sextet1 (N.land x 3) y))) = true.
Proof. vm_compute. reflexivity. Qed.

Lemma check_middle_byte :
  all_below 4 (fun x => all_below 256 (fun y => all_below 4 (fun t =>
    octet1 (sextet1 x y) (N.lor (N.shiftl (N.land y 15) 2) t) =? y)))
  = true.
Proof. vm_compute. reflexivity. Qed.

Lemma check_alphabet : all_below 64 good_char = true.
Proof. vm_compute. reflexivity. Qed.

Lemma one_byte (x : N) :
  x < 256 ->
  sextet0 x < 64 /\ sextet3 x < 64 /\ N.land x 3 < 4 /\ N.shiftr x 6 < 4.
Proof.
  intros Hx. pose proof (all_below_spec _ _ check_one_byte x Hx) as H.
  cbv beta in H. rewrite !andb_true_iff in H.
  destruct H as [[[H0 H3] Hl] Hs]. rewrite !N.ltb_lt in *. tauto.
Qed.

Lemma two_bytes (x y : N) :
  x < 256 -> y < 256 ->
  sextet1 x y < 64 /\ sextet2 x y < 64
  /\ octet0 (sextet0 x) (sextet1 x y) = x
  /\ octet2 (sextet2 x y) (sextet3 y) = y
  /\ sextet1 x y = sextet1 (N.land x 3) y.
Proof.
  intros Hx Hy.
  pose proof (all_below_spec _ _ check_two_bytes x Hx) as H.
  cbv beta in H. pose proof (all_below_spec _ _ H y Hy) as H'.
  cbv beta in H'. rewrite !andb_true_iff in H'.
  destruct H' as [[[[H1 H2] H3] H4] H5].
  rewrite !N.ltb_lt in *. rewrite !N.eqb_eq in *. tauto.
Qed.

Lemma middle_byte (x y z : N) :
  x < 256 -> y < 256 -> z < 256 ->
  octet1 (sextet1 x y) (sextet2 y z) = y.
Proof.
  intros Hx Hy Hz.
  destruct (one_byte x Hx) as (_ & _ & Hx3 & _).
  destruct (one_byte z Hz) as (_ & _ & _ & Hz6).
  destruct (two_bytes x y Hx Hy) as (_ & _ & _ & _ & ->).
  unfold sextet2.
  pose proof (all_below_spec _ _ check_middle_byte _ Hx3) as H.
  cbv beta in H. pose proof (all_below_spec _ _ H y Hy) as H'.
  cbv beta in H'. pose proof (all_below_spec _ _ H' _ Hz6) as H''.
  cbv beta in H''. now apply N.eqb_eq in H''.
Qed.

Lemma alphabet_char (i : N) :
  i < 64 ->
  b64index (Byte.to_N (b64char i)) = Some i
  /\ Byte.to_N (b64char i) < 128
  /\ Byte.to_N (b64char i) <> 61
  /\ Byte.to_N (b64char i) <> 10.
Proof.
  intros Hi. pose proof (all_below_spec _ _ check_alphabet i Hi) as H.
  unfold good_char in H.
  destruct (b64index (Byte.to_N (b64char i))) as [j|]; [|discriminate].
  rewrite !andb_true_iff, !negb_true_iff in H.
  destruct H as [[[Hj Hlt] Hpad] Hnl].
  apply N.eqb_eq in Hj. apply N.ltb_lt in Hlt.
  apply N.eqb_neq in Hpad, Hnl. subst j. tauto.
Qed.

End Base64Facts.

(* ================================================================== *)
(** * base64: the encoding, its padding and its decoding *)
(* ================================================================== *)

Section Base64Codec.

Import Base64.

Lemma bytes_ind3 (P : bytes -> Prop) :
  P [] -> (forall a, P [a]) -> (forall a b, P [a; b]) ->
  (forall a b c rest, P rest -> P (a :: b :: c :: rest)) ->
  forall bs, P bs.
Proof.
  intros H0 H1 H2 H3 bs.
  enough (H : P bs /\ (forall a, P (a :: bs))
              /\ (forall a b, P (a :: b :: bs))) by apply H.
  induction bs as [|c rest (IH0 & IH1 & IH2)].
  - auto.
  - repeat split; auto.
Qed.

Lemma b64encode_step (a b c : byte) (rest : bytes) :
  b64encode (a :: b :: c :: rest) = enc3 a b c ++ b64encode rest.
Proof. reflexivity. Qed.

Lemma body_step (a b c : byte) (rest : bytes) :
  body (a :: b :: c :: rest) = enc3 a b c ++ body rest.
Proof. reflexivity. Qed.

(** The encoding is its unpadded part followed by the padding. *)
Lemma b64encode_body_padding (bs : bytes) :
  b64encode bs = body bs ++ padding bs.
Proof.
  induction bs as [|a|a b|a b c rest IH] using bytes_ind3;
    try reflexivity.
  rewrite b64encode_step, body_step, IH. now rewrite app_assoc.
Qed.

Lemma plain_b64char (i : N) : i < 64 -> plain (b64char i).
Proof. intros Hi. destruct (alphabet_char i Hi) as (_ & H). exact H. Qed.

Lemma sextets_lt (a b : byte) :
  sextet0 (Byte.to_N a) < 64
  /\ sextet1 (Byte.to_N a) (Byte.to_N b) < 64
  /\ sextet2 (Byte.to_N a) (Byte.to_N b) < 64
  /\ sextet3 (Byte.to_N a) < 64
  /\ sextet1 (Byte.to_N a) 0 < 64
  /\ sextet2 (Byte.to_N a) 0 < 64.
Proof.
  pose proof (byte_lt_256 a) as Ha. pose proof (byte_lt_256 b) as Hb.
  assert (H0 : 0 < 256) by lia.
  destruct (one_byte _ Ha) as (? & ? & _).
  destruct (two_bytes _ _ Ha Hb) as (? & ? & _).
  destruct (two_bytes _ _ Ha H0) as (? & ? & _).
  tauto.
Qed.

Lemma plain_enc3 (a b c : byte) : Forall plain (enc3 a b c).
Proof.
  destruct (sextets_lt a b) as (? & ? & _).
  destruct (sextets_lt b c) as (_ & _ & ? & _).
  destruct (sextets_lt c c) as (_ & _ & _ & ? & _).
  unfold enc3. repeat constructor; now apply plain_b64char.
Qed.

Lemma plain_body (bs : bytes) : Forall plain (body bs).
Proof.
  induction bs as [|a|a b|a b c rest IH] using bytes_ind3.
  - constructor.
  - destruct (sextets_lt a a) as (? & _ & _ & _ & ? & _).
    cbn [body enc1 firstn]. repeat constructor; now apply plain_b64char.
  - destruct (sextets_lt a b) as (? & ? & _).
    destruct (sextets_lt b b) as (_ & _ & _ & _ & _ & ?).
    cbn [body enc2 firstn]. repeat constructor; now apply plain_b64char.
  - rewrite body_step. apply Forall_app. split; [apply plain_enc3 | exact IH].
Qed.

Lemma to_N_pad : Byte.to_N pad = EQUALS.
Proof. reflexivity. Qed.

(** The padding is zero, one or two padding characters: as many as
    bring the length of the unpadded part to a multiple of four. *)
Lemma padding_count (bs : bytes) :
  padding bs = repeat pad ((4 - length (body bs) mod 4) mod 4)%nat.
Proof.
  induction bs as [|a|a b|a b c rest IH] using bytes_ind3;
    try reflexivity.
  rewrite body_step, length_app.
  change (length (enc3 a b c)) with (1 * 4)%nat.
  rewrite Nat.add_comm, Nat.Div0.mod_add. exact IH.
Qed.

(** The characters of the encoding are ASCII. *)
Lemma decode_ascii_plain (l : bytes) :
  Forall (fun b => Byte.to_N b < 128) l ->
  Py.decode_ascii l = Some (map Byte.to_N l).
Proof.
  induction 1 as [|b l Hb Hl IH]; [reflexivity|].
  cbn [Py.decode_ascii map]. apply N.ltb_lt in Hb. now rewrite Hb, IH.
Qed.

Lemma padding_ascii (bs : bytes) :
  Forall (fun b => Byte.to_N b < 128) (padding bs).
Proof.
  rewrite padding_count. apply List.Forall_forall. intros b Hb.
  apply repeat_spec in Hb. subst b. rewrite to_N_pad. reflexivity.
Qed.

Lemma decode_ascii_b64encode (bs : bytes) :
  Py.decode_ascii (b64encode bs) = Some (map Byte.to_N (b64encode bs)).
Proof.
  apply decode_ascii_plain. rewrite b64encode_body_padding.
  apply Forall_app. split; [|apply padding_ascii].
  eapply List.Forall_impl; [|apply plain_body]. intros b H. apply H.
Qed.

(** Stripping a suffix of characters of the set. *)
Lemma rstrip_app_all (cs s t : str) :
  Forall (fun c => Py.mem c cs = true) t ->
  Py.rstrip cs (s ++ t) = Py.rstrip cs s.
Proof.
  induction t as [|c t IH] using rev_ind; intros H.
  - now rewrite app_nil_r.
  - apply Forall_app in H. destruct H as [Ht Hc].
    inversion Hc; subst. rewrite app_assoc, rstrip_snoc.
    match goal with E : Py.mem c cs = true |- _ => rewrite E end.
    now apply IH.
Qed.

Lemma rstrip_b64encode (bs : bytes) :
  Py.rstrip [EQUALS] (map Byte.to_N (b64encode bs))
  = map Byte.to_N (body bs).
Proof.
  rewrite b64encode_body_padding, map_app, rstrip_app_all.
  - apply rstrip_none. apply Forall_map.
    eapply List.Forall_impl; [|apply plain_body].
    intros b (_ & Hb & _). cbn [Py.mem existsb]. rewrite orb_false_r.
    now apply N.eqb_neq.
  - rewrite padding_count, map_repeat, to_N_pad.
    apply List.Forall_forall. intros c Hc. apply repeat_spec in Hc.
    now subst c.
Qed.

(** The text the chunker splits: the unpadded part of the encoding. *)
Lemma b64_stripped_body (bs : bytes) :
  b64_stripped bs = Some (map Byte.to_N (body bs)).
Proof.
  unfold b64_stripped.
  now rewrite decode_ascii_b64encode, rstrip_b64encode.
Qed.

End Base64Codec.

(* ================================================================== *)
(** * The chunk encoder *)
(* ================================================================== *)

Section ChunkEncoder.

Import Base64.

Lemma count_step (n : nat) :
  (1 <= n)%nat ->
  ((n - 0 + (76 - 1)) / 76 = S ((n - 76 - 0 + (76 - 1)) / 76))%nat.
Proof.
  intros H. rewrite !Nat.sub_0_r.
  change (76 - 1)%nat with 75%nat.
  destruct (Nat.le_gt_cases 76 n) as [Hge|Hlt].
  - replace (n + 75)%nat with ((n - 76 + 75) + 1 * 76)%nat by lia.
    rewrite Nat.div_add by lia. lia.
  - replace (n - 76 + 75)%nat with 75%nat by lia.
    replace (n + 75)%nat with ((n - 1) + 1 * 76)%nat by lia.
    rewrite Nat.div_add by lia. rewrite (Nat.div_small (n - 1)) by lia.
    reflexivity.
Qed.

(** The slices of the comprehension: the first 76 characters, then the
    slices of the rest. *)
Lemma parts_of_unfold (s : str) :
  s <> [] -> parts_of s = firstn 76 s :: parts_of (skipn 76 s).
Proof.
  intros Hs. unfold parts_of, Py.range.
  rewrite (count_step (length s)) by (destruct s; [congruence | simpl; lia]).
  rewrite length_skipn.
  rewrite <- cons_seq, <- seq_shift. cbn [map]. f_equal.
  rewrite !map_map. apply map_ext. intros k. unfold Py.slice.
  replace (0 + S k * 76 + 76 - (0 + S k * 76))%nat with 76%nat by lia.
  replace (0 + k * 76 + 76 - (0 + k * 76))%nat with 76%nat by lia.
  rewrite skipn_skipn. f_equal. f_equal. lia.
Qed.

Lemma parts_of_nil : parts_of [] = [].
Proof. reflexivity. Qed.

Lemma parts_of_chunks_upto (fuel : nat) (s : str) :
  (length s <= fuel)%nat -> parts_of s = Spec.chunks_upto fuel 76 s.
Proof.
  revert s. induction fuel as [|fuel IH]; intros s Hlen.
  - destruct s; [reflexivity | simpl in Hlen; lia].
  - destruct s as [|c s]; [reflexivity|].
    rewrite parts_of_unfold by discriminate.
    cbn [Spec.chunks_upto]. f_equal. apply IH.
    rewrite length_skipn. simpl in Hlen. simpl length. lia.
Qed.

(** The comprehension over [range(0, len(b64), 76)] gives the
    consecutive substrings of 76 characters. *)
Lemma parts_of_chunks (s : str) : parts_of s = Spec.chunks 76 s.
Proof. now apply parts_of_chunks_upto. Qed.

Lemma chunks_concat (fuel : nat) (s : str) :
  (length s <= fuel)%nat -> concat (Spec.chunks_upto fuel 76 s) = s.
Proof.
  revert s. induction fuel as [|fuel IH]; intros s Hlen.
  - destruct s; [reflexivity | simpl in Hlen; lia].
  - destruct s as [|c s]; [reflexivity|].
    cbn [Spec.chunks_upto concat]. rewrite IH.
    + apply firstn_skipn.
    + rewrite length_skipn. simpl in Hlen. simpl length. lia.
Qed.

Lemma chunks_length (fuel : nat) (s : str) :
  Forall (fun p => (length p <= 76)%nat) (Spec.chunks_upto fuel 76 s).
Proof.
  revert s. induction fuel as [|fuel IH]; intros s; [constructor|].
  destruct s as [|c s]; [constructor|].
  cbn [Spec.chunks_upto]. constructor; [|apply IH].
  rewrite length_firstn. lia.
Qed.

Lemma chunks_all (P : char -> Prop) (fuel : nat) (s : str) :
  Forall P s -> Forall (Forall P) (Spec.chunks_upto fuel 76 s).
Proof.
  revert s. induction fuel as [|fuel IH]; intros s Hs; [constructor|].
  destruct s as [|c s]; [constructor|].
  cbn [Spec.chunks_upto].
  rewrite <- (firstn_skipn 76 (c :: s)) in Hs.
  apply Forall_app in Hs. destruct Hs as [Hf Hk].
  constructor; [exact Hf | now apply IH].
Qed.

Lemma join_all (P : char -> Prop) (sep : str) (parts : list str) :
  Forall P sep -> Forall (Forall P) parts -> Forall P (Py.join sep parts).
Proof.
  intros Hsep. induction 1 as [|p ps Hp Hps IH]; [constructor|].
  destruct ps as [|q ps]; [exact Hp|].
  rewrite join_cons2. apply Forall_app. split; [exact Hp|].
  apply Forall_app. split; [exact Hsep | exact IH].
Qed.

Lemma split_line (l rest : str) :
  Forall (fun c => c <> LF) l ->
  Py.split LF (l ++ LF :: rest) = l :: Py.split LF rest.
Proof.
  induction 1 as [|c l Hc Hl IH].
  - cbn [app Py.split]. now rewrite N.eqb_refl.
  - cbn [app Py.split]. apply N.eqb_neq in Hc. now rewrite Hc, IH.
Qed.

Lemma split_terminated (parts : list str) :
  Forall (Forall (fun c => c <> LF)) parts ->
  Py.split LF (concat (map (fun p => p ++ [LF]) parts)) = parts ++ [[]].
Proof.
  induction 1 as [|p ps Hp Hps IH]; [reflexivity|].
  cbn [map concat]. rewrite <- app_assoc. cbn [app].
  rewrite split_line by assumption. now rewrite IH.
Qed.

(** The lines of a block: its parts and the empty text after the last
    newline. *)
Lemma lines_of_block (parts : list str) :
  Forall (Forall (fun c => c <> LF)) parts ->
  Spec.lines_of (Py.join [LF] parts ++ [LF])
  = match parts with [] => [[]; []] | _ :: _ => parts ++ [[]] end.
Proof.
  intros H. destruct parts as [|p ps]; [reflexivity|].
  unfold Spec.lines_of. rewrite join_terminated.
  now apply split_terminated.
Qed.

Lemma remove_newlines_line (q : str) :
  Forall (fun c => c <> LF) q -> Spec.remove_newlines (q ++ [LF]) = q.
Proof.
  unfold Spec.remove_newlines.
  induction 1 as [|c q Hc Hq IH]; [reflexivity|].
  cbn [app List.filter]. apply N.eqb_neq in Hc. rewrite Hc. cbn [negb].
  now rewrite IH.
Qed.

Lemma remove_newlines_terminated (parts : list str) :
  Forall (Forall (fun c => c <> LF)) parts ->
  Spec.remove_newlines (concat (map (fun p => p ++ [LF]) parts))
  = concat parts.
Proof.
  induction 1 as [|q qs Hq Hqs IH]; [reflexivity|].
  cbn [map concat]. unfold Spec.remove_newlines in *.
  rewrite List.filter_app.
  f_equal; [now apply remove_newlines_line | exact IH].
Qed.

Lemma remove_newlines_block (parts : list str) :
  Forall (Forall (fun c => c <> LF)) parts ->
  Spec.remove_newlines (Py.join [LF] parts ++ [LF]) = concat parts.
Proof.
  intros H. destruct parts as [|p ps]; [reflexivity|].
  rewrite join_terminated. now apply remove_newlines_terminated.
Qed.

(** The characters of the unpadded encoding. *)
Lemma body_chars (P : char -> Prop) (B : bytes) :
  (forall b, plain b -> P (Byte.to_N b)) ->
  Forall P (map Byte.to_N (body B)).
Proof.
  intros HP. apply Forall_map.
  eapply List.Forall_impl; [|apply plain_body]. exact HP.
Qed.

Lemma chunk_is_parts (B : bytes) :
  _b64_strip_and_chunk B
  = Some (Py.join [LF] (Spec.chunks 76 (map Byte.to_N (body B))) ++ [LF]).
Proof.
  unfold _b64_strip_and_chunk.
  now rewrite b64_stripped_body, parts_of_chunks.
Qed.

Lemma chunk_encode_parts (B : bytes) :
  Spec.chunk_encode B
  = Py.join [LF] (Spec.chunks 76 (map Byte.to_N (body B))) ++ [LF].
Proof.
  unfold Spec.chunk_encode.
  rewrite <- (rstrip_strip_trailing [EQUALS]), rstrip_b64encode;
    [reflexivity|].
  intros c. cbn [Py.mem existsb]. now rewrite orb_false_r, N.eqb_sym.
Qed.

(** C1: for every byte sequence the chunk encoder returns (it does not
    raise) the base64 text without its trailing padding, cut into
    consecutive pieces of 76 characters, joined by newlines, with one
    newline at the end; the result contains no equals sign and none of
    its lines is longer than 76 characters; for no bytes it is one
    newline. *)
Theorem b64_strip_and_chunk_spec (B : bytes) :
  _b64_strip_and_chunk B = Some (Spec.chunk_encode B)
  /\ ~ In EQUALS (Spec.chunk_encode B)
  /\ Forall (fun l => (length l <= 76)%nat)
       (Spec.lines_of (Spec.chunk_encode B))
  /\ _b64_strip_and_chunk [] = Some [LF].
Proof.
  split; [now rewrite chunk_is_parts, chunk_encode_parts|].
  rewrite chunk_encode_parts. split; [|split; [|reflexivity]].
  - assert (H : Forall (fun c => c <> EQUALS)
              (Py.join [LF] (Spec.chunks 76 (map Byte.to_N (body B)))
               ++ [LF])).
    { apply Forall_app. split; [|now repeat constructor].
      apply join_all; [now repeat constructor|].
      apply chunks_all. apply body_chars. intros b (_ & Hb & _). exact Hb. }
    intros Hin. rewrite List.Forall_forall in H. now apply (H _ Hin).
  - rewrite lines_of_block.
    + assert (Hlen : Forall (fun p => (length p <= 76)%nat)
                       (Spec.chunks 76 (map Byte.to_N (body B))))
        by apply chunks_length.
      destruct (Spec.chunks 76 (map Byte.to_N (body B))).
      * repeat constructor.
      * apply Forall_app. split; [exact Hlen|].
        constructor; [cbn [length]; lia | constructor].
    + apply chunks_all. apply body_chars. intros b (_ & _ & Hb). exact Hb.
Qed.

End ChunkEncoder.

(* ================================================================== *)
(** * Decoding an encoded block *)
(* ================================================================== *)

Section RoundTrip.

Import Base64.

Lemma b64decode_last (a b c d : char) :
  b64decode [a; b; c; d]
  = if d =? 61
    then (if c =? 61 then dec2 a b else dec3 a b c)
    else dec4 a b c d.
Proof. reflexivity. Qed.

Lemma b64decode_more (a b c d e : char) (rest : str) :
  b64decode (a :: b :: c :: d :: e :: rest)
  = match dec4 a b c d, b64decode (e :: rest) with
    | Some g, Some bs => Some (g ++ bs)
    | _, _ => None
    end.
Proof. reflexivity. Qed.

Lemma index_char (i : N) :
  i < 64 -> b64index (Byte.to_N (b64char i)) = Some i.
Proof. intros Hi. now destruct (alphabet_char i Hi). Qed.

Lemma dec4_enc3 (a b c : byte) :
  dec4 (Byte.to_N (b64char (sextet0 (Byte.to_N a))))
       (Byte.to_N (b64char (sextet1 (Byte.to_N a) (Byte.to_N b))))
       (Byte.to_N (b64char (sextet2 (Byte.to_N b) (Byte.to_N c))))
       (Byte.to_N (b64char (sextet3 (Byte.to_N c))))
  = Some [a; b; c].
Proof.
  pose proof (byte_lt_256 a) as Ha. pose proof (byte_lt_256 b) as Hb.
  pose proof (byte_lt_256 c) as Hc.
  destruct (one_byte _ Ha) as (H0 & _).
  destruct (one_byte _ Hc) as (_ & H3 & _).
  destruct (two_bytes _ _ Ha Hb) as (H1 & _ & E0 & _).
  destruct (two_bytes _ _ Hb Hc) as (_ & H2 & _ & E2 & _).
  pose proof (middle_byte _ _ _ Ha Hb Hc) as E1.
  unfold dec4. rewrite !index_char by assumption.
  rewrite E0, E1, E2, !Byte.of_to_N. reflexivity.
Qed.

Lemma dec3_enc2 (a b : byte) :
  dec3 (Byte.to_N (b64char (sextet0 (Byte.to_N a))))
       (Byte.to_N (b64char (sextet1 (Byte.to_N a) (Byte.to_N b))))
       (Byte.to_N (b64char (sextet2 (Byte.to_N b) 0)))
  = Some [a; b].
Proof.
  pose proof (byte_lt_256 a) as Ha. pose proof (byte_lt_256 b) as Hb.
  assert (Hz : 0 < 256) by lia.
  destruct (one_byte _ Ha) as (H0 & _).
  destruct (two_bytes _ _ Ha Hb) as (H1 & _ & E0 & _).
  destruct (two_bytes _ _ Hb Hz) as (_ & H2 & _).
  pose proof (middle_byte _ _ _ Ha Hb Hz) as E1.
  unfold dec3. rewrite !index_char by assumption.
  rewrite E0, E1, !Byte.of_to_N. reflexivity.
Qed.

Lemma dec2_enc1 (a : byte) :
  dec2 (Byte.to_N (b64char (sextet0 (Byte.to_N a))))
       (Byte.to_N (b64char (sextet1 (Byte.to_N a) 0)))
  = Some [a].
Proof.
  pose proof (byte_lt_256 a) as Ha.
  assert (Hz : 0 < 256) by lia.
  destruct (one_byte _ Ha) as (H0 & _).
  destruct (two_bytes _ _ Ha Hz) as (H1 & _ & E0 & _).
  unfold dec2. rewrite !index_char by assumption.
  rewrite E0, !Byte.of_to_N. reflexivity.
Qed.

(** Decoding the padded encoding gives the bytes back. *)
Lemma b64decode_b64encode (bs : bytes) :
  b64decode (map Byte.to_N (b64encode bs)) = Some bs.
Proof.
  induction bs as [|a|a b|a b c rest IH] using bytes_ind3.
  - reflexivity.
  - cbn [b64encode enc1 map]. rewrite b64decode_last, to_N_pad.
    change (EQUALS =? 61) with true. cbv iota. apply dec2_enc1.
  - cbn [b64encode enc2 map]. rewrite b64decode_last, to_N_pad.
    change (EQUALS =? 61) with true. cbv iota.
    destruct (sextets_lt b b) as (_ & _ & _ & _ & _ & H2).
    destruct (alphabet_char _ H2) as (_ & _ & Hne & _).
    apply N.eqb_neq in Hne. rewrite Hne. apply dec3_enc2.
  - rewrite b64encode_step, map_app. cbn [enc3 map app].
    destruct (map Byte.to_N (b64encode rest)) as [|e r] eqn:E.
    + cbn [b64decode] in IH. injection IH as <-.
      rewrite b64decode_last.
      destruct (sextets_lt c c) as (_ & _ & _ & H3 & _).
      destruct (alphabet_char _ H3) as (_ & _ & Hne & _).
      apply N.eqb_neq in Hne. rewrite Hne. apply dec4_enc3.
    + rewrite b64decode_more, dec4_enc3, IH. reflexivity.
Qed.

(** Restoring the padding of the unpadded part gives the encoding. *)
Lemma restore_padding_body (bs : bytes) :
  Spec.restore_padding (map Byte.to_N (body bs))
  = map Byte.to_N (b64encode bs).
Proof.
  unfold Spec.restore_padding.
  rewrite b64encode_body_padding, map_app, padding_count, map_repeat,
    to_N_pad, length_map.
  reflexivity.
Qed.

(** C6: for every byte sequence the chunk encoder returns a block;
    removing its newlines, appending the equals signs that bring the
    length to a multiple of four and decoding gives the byte sequence
    back. *)
Theorem chunk_round_trip (B : bytes) :
  exists block : str,
    _b64_strip_and_chunk B = Some block
    /\ b64decode (Spec.restore_padding (Spec.remove_newlines block))
       = Some B.
Proof.
  eexists. split; [apply chunk_is_parts|].
  rewrite remove_newlines_block.
  - unfold Spec.chunks. rewrite chunks_concat by reflexivity.
    rewrite restore_padding_body. apply b64decode_b64encode.
  - apply chunks_all. apply body_chars. intros b (_ & _ & Hb). exact Hb.
Qed.

End RoundTrip.

(* ================================================================== *)
(** * Compressing nothing *)
(* ================================================================== *)

Section EmptyPayload.

Import Base64.

Lemma body_nonempty (B : bytes) : B <> [] -> body B <> [].
Proof.
  destruct B as [|a [|b [|c rest]]]; [congruence | | |]; intros _.
  - cbn [body enc1 firstn]. discriminate.
  - cbn [body enc2 firstn]. discriminate.
  - rewrite body_step. unfold enc3. discriminate.
Qed.

Lemma chunks_nonempty (s : str) :
  s <> [] -> exists c p ps, Spec.chunks 76 s = (c :: p) :: ps.
Proof.
  destruct s as [|c s]; [congruence|]. intros _.
  exists c, (firstn 75 s).
  exists (Spec.chunks_upto (length s) 76 (skipn 76 (c :: s))).
  reflexivity.
Qed.

Lemma join_nonempty (sep : str) (c : char) (p : str) (ps : list str) :
  Py.join sep ((c :: p) :: ps) <> [].
Proof. destruct ps; discriminate. Qed.

(** The block is a lone newline for no bytes, and only then. *)
Lemma chunk_newline_iff (B : bytes) :
  _b64_strip_and_chunk B = Some [LF] <-> B = [].
Proof.
  split; [|now intros ->].
  rewrite chunk_is_parts. intros H.
  destruct B as [|a B]; [reflexivity|]. exfalso.
  pose proof (body_nonempty (a :: B) ltac:(discriminate)) as Hb.
  destruct (chunks_nonempty (map Byte.to_N (body (a :: B))))
    as (c & p & ps & E).
  { destruct (body (a :: B)); [congruence | discriminate]. }
  rewrite E in H.
  assert (H' : Py.join [LF] ((c :: p) :: ps) ++ [LF] = [] ++ [LF])
    by exact (f_equal (fun o => match o with Some x => x | None => [] end) H).
  apply app_inv_tail in H'. now apply join_nonempty in H'.
Qed.

(** C8, as the claim words it: the block of the compressed empty
    input is not a lone newline. *)
Lemma compressed_empty_block_not_newline :
  _b64_strip_and_chunk Zlib.compress_empty <> Some [LF].
Proof. vm_compute. discriminate. Qed.

(** C8, amended: compressing no bytes gives the eight bytes
    78 DA 03 00 00 00 00 01, and their block is the one data line
    eNoDAAAAAAE followed by one newline; no zlib stream, whatever its
    deflate data, has the lone newline as its block (that is the block
    of the uncompressed empty byte sequence). *)
Theorem compressed_empty_block :
  Zlib.compress_empty = bytes_of [120; 218; 3; 0; 0; 0; 0; 1]
  /\ _b64_strip_and_chunk Zlib.compress_empty
     = Some (py "eNoDAAAAAAE" ++ [LF])
  /\ Spec.lines_of (py "eNoDAAAAAAE" ++ [LF]) = [py "eNoDAAAAAAE"; []]
  /\ (forall blocks data : bytes,
        _b64_strip_and_chunk (Zlib.stream blocks data) <> Some [LF])
  /\ _b64_strip_and_chunk [] = Some [LF].
Proof.
  split; [vm_compute; reflexivity|].
  split; [vm_compute; reflexivity|].
  split; [vm_compute; reflexivity|].
  split; [|reflexivity].
  intros blocks data H. apply chunk_newline_iff in H.
  unfold Zlib.stream in H. discriminate.
Qed.

End EmptyPayload.

(* ================================================================== *)
(** * The temporary files of a request *)
(* ================================================================== *)

Section TemporaryFiles.

Lemma keeps_ret {A} (a : A) : keeps_files (ret a).
Proof. intros w. simpl. split; [set_solver | lia]. Qed.

Lemma keeps_raise {A} (e : str) : keeps_files (@raise A e).
Proof. intros w. simpl. split; [set_solver | lia]. Qed.

Lemma keeps_bind {A B} (m : M A) (k : A -> M B) :
  keeps_files m -> (forall a, keeps_files (k a)) ->
  keeps_files (bind m k).
Proof.
  intros Hm Hk w. unfold bind. specialize (Hm w).
  destruct (m w) as [[a|e] w1]; simpl in Hm |- *; [|exact Hm].
  specialize (Hk a w1). destruct Hm, Hk. split; [set_solver | lia].
Qed.

Lemma keeps_try_except {A} (m : M A) (h : str -> M A) :
  keeps_files m -> (forall e, keeps_files (h e)) ->
  keeps_files (try_except m h).
Proof.
  intros Hm Hh w. unfold try_except. specialize (Hm w).
  destruct (m w) as [[a|e] w1]; simpl in Hm |- *; [exact Hm|].
  specialize (Hh e w1). destruct Hm, Hh. split; [set_solver | lia].
Qed.

Lemma keeps_call (o : option str) : keeps_files (call o).
Proof. destruct o; [apply keeps_raise | apply keeps_ret]. Qed.

Lemma keeps_or_raise {A} (x : option A) (e : str) :
  keeps_files (or_raise x e).
Proof. destruct x; [apply keeps_ret | apply keeps_raise]. Qed.

Lemma keeps_NamedTemporaryFile (raises : option str) :
  keeps_files (NamedTemporaryFile raises).
Proof.
  intros w. destruct raises; simpl; (split; [set_solver | lia]).
Qed.

Lemma keeps_transcode (T : tools) (src dst : nat) :
  keeps_files (transcode_to_ogg_opus T src dst).
Proof.
  unfold transcode_to_ogg_opus.
  destruct (FFMPEG T); [apply keeps_call | apply keeps_raise].
Qed.

Ltac keeps :=
  repeat first
    [ apply keeps_ret | apply keeps_raise | apply keeps_call
    | apply keeps_or_raise | apply keeps_NamedTemporaryFile
    | apply keeps_transcode
    | apply keeps_bind; [|intros ?]
    | match goal with
      | |- keeps_files (if ?b then _ else _) => destruct b
      | |- keeps_files (match ?x with _ => _ end) => destruct x
      end ].

(** Nothing in the [try] block deletes a file. *)
Lemma embed_try_keeps (T : tools) (title csv_text base ext : str)
    (tmp_in tmp_ogg : nat) :
  keeps_files (embed_try T title csv_text base ext tmp_in tmp_ogg).
Proof. unfold embed_try. cbv zeta. keeps. Qed.

(** The [finally] block deletes at most the saved upload. *)
Lemma embed_finally_only (tmp_in : nat) (w : world) :
  (files w ∖ {[ tmp_in ]} ⊆ files (snd (embed_finally tmp_in w)))
  /\ (tmp_in ∉ files (snd (embed_finally tmp_in w))).
Proof.
  unfold embed_finally, try_except, bind, path_exists, unlink, ret.
  destruct (bool_decide (tmp_in ∈ files w)) eqn:E;
    cbn; rewrite ?E; cbn.
  - split; [reflexivity|].
    rewrite elem_of_difference, elem_of_singleton. tauto.
  - apply bool_decide_eq_false in E. split; [|exact E].
    intros p Hp. apply elem_of_difference in Hp. tauto.
Qed.

(** Once the try block is entered (both temporary files made, the
    upload saved), the intermediate audio file outlives the request on
    every path, and the saved upload does not. *)
Lemma embed_keeps_tmp_ogg (T : tools) (req : request) (w : world)
    (c : char) (name csv_text : str) :
  audio req = Some (c :: name) -> csv req = Some csv_text ->
  tmp_in_raises T (snd (secure_splitext T (c :: name))) = None ->
  save_raises T = None -> tmp_ogg_raises T = None ->
  (fresh w ∉ files (snd (embed T req w)))
  /\ (S (fresh w) ∈ files (snd (embed T req w))).
Proof.
  intros Ha Hc Hin Hs Hogg. unfold embed. rewrite Ha, Hc.
  cbn [Py.or_else].
  destruct (secure_splitext T (c :: name)) as [base ext].
  cbn [snd] in Hin.
  unfold bind, NamedTemporaryFile. rewrite Hin, Hs, Hogg.
  unfold call, try_finally. cbn [ret fresh files].
  match goal with
  | |- context [try_except ?m ?h ?w2] =>
      pose proof (keeps_try_except m h
                    (embed_try_keeps _ _ _ _ _ _ _)
                    (fun e => keeps_ret _) w2) as [Hsub _];
      destruct (try_except m h w2) as [r w3]
  end.
  cbn [snd files] in Hsub.
  destruct (embed_finally_only (fresh w) w3) as [Hfin Hgone].
  destruct (embed_finally (fresh w) w3) as [[u|e] w4];
    cbn [snd] in *; (split; [exact Hgone|]);
    apply Hfin; apply elem_of_difference;
    (split; [apply Hsub; set_solver | rewrite elem_of_singleton; lia]).
Qed.

(** C9, on the code: where every external call succeeds the handler
    sends the output file and the intermediate audio file (1) and the
    output file (2) still exist afterwards; where ffmpeg is missing it
    aborts with status 500 and the intermediate audio file still
    exists; where saving the upload fails the saved-upload file (0)
    still exists. *)
Theorem embed_leaves_temporary_files :
  (fst (embed all_fine a_request empty_world)
   = Ok (SendFile 2 (py "song_glyphed.ogg"))
   /\ leaked empty_world (snd (embed all_fine a_request empty_world))
      = [1; 2]%nat)
  /\ (fst (embed no_ffmpeg a_request empty_world)
      = Ok (Abort 500
              (py "Embed failed: ffmpeg not found; please install ffmpeg"))
      /\ leaked empty_world (snd (embed no_ffmpeg a_request empty_world))
         = [1]%nat)
  /\ (fst (embed save_fails a_request empty_world) = Exc (py "OSError")
      /\ leaked empty_world (snd (embed save_fails a_request empty_world))
         = [0]%nat).
Proof. repeat split; vm_compute; reflexivity. Qed.

End TemporaryFiles.

(* ================================================================== *)
(** * More on the escaper *)
(* ================================================================== *)

Section EscaperMore.

Lemma one_pass_cons (c : char) (s : str) :
  Spec.escape_one_pass (c :: s)
  = (if Spec.special c then [BACKSLASH; c] else [c])
    ++ Spec.escape_one_pass s.
Proof. reflexivity. Qed.

Lemma special_false (c : char) :
  Spec.special c = false -> c <> BACKSLASH /\ c <> LF.
Proof.
  unfold Spec.special. rewrite !orb_false_iff, !N.eqb_neq. tauto.
Qed.

(** X1: the escaper is one pass over the text that puts one backslash
    before each backslash, equals sign, semicolon, hash and newline and
    leaves every other character as it is: no character is escaped
    twice. *)
Theorem escape_ffmeta_single_pass (s : str) :
  _escape_ffmeta s
  = flat_map (fun c => if Spec.special c then [BACKSLASH; c] else [c]) s.
Proof. exact (escape_one_pass s). Qed.

(** X2: escaping a concatenation is concatenating the escaped parts. *)
Theorem escape_ffmeta_app (s t : str) :
  _escape_ffmeta (s ++ t) = _escape_ffmeta s ++ _escape_ffmeta t.
Proof. rewrite !escape_is_spec. apply escape_app. Qed.

Lemma unescape_one_pass (s : str) :
  Reader.unescape (Spec.escape_one_pass s) = s.
Proof.
  induction s as [|c s IH]; [reflexivity|].
  rewrite one_pass_cons. destruct (Spec.special c) eqn:E.
  - cbn [app Reader.unescape]. rewrite N.eqb_refl. now rewrite IH.
  - destruct (special_false c E) as [Hb _]. apply N.eqb_neq in Hb.
    cbn [app Reader.unescape]. rewrite Hb. now rewrite IH.
Qed.

(** X3: the escaping is reversible: dropping each escaping backslash
    of the escaped text gives the text back, whatever it contains. *)
Theorem unescape_escape_ffmeta (s : str) :
  Reader.unescape (_escape_ffmeta s) = s.
Proof. rewrite escape_one_pass. apply unescape_one_pass. Qed.

(** X4: the escaped text is longer than the text by the number of its
    backslashes, equals signs, semicolons, hashes and newlines. *)
Theorem escape_ffmeta_length (s : str) :
  length (_escape_ffmeta s) = (length s + Reader.count_special s)%nat.
Proof.
  rewrite escape_one_pass. unfold Reader.count_special.
  induction s as [|c s IH]; [reflexivity|].
  rewrite one_pass_cons, length_app, IH. cbn [List.filter length].
  destruct (Spec.special c); cbn [length]; lia.
Qed.

End EscaperMore.

(* ================================================================== *)
(** * Reading a document back *)
(* ================================================================== *)

Section DocumentReader.

Lemma fold_push (p l : str) (ls : list str) :
  fold_right Reader.push (l :: ls) p = (p ++ l) :: ls.
Proof.
  induction p as [|c p IH]; [reflexivity|].
  cbn [fold_right]. now rewrite IH.
Qed.

Lemma logical_lines_plain (k rest : str) :
  Forall (fun c => c <> BACKSLASH /\ c <> LF) k ->
  Reader.logical_lines (k ++ rest)
  = fold_right Reader.push (Reader.logical_lines rest) k.
Proof.
  induction 1 as [|c k [Hb Hn] Hk IH]; [reflexivity|].
  apply N.eqb_neq in Hb, Hn.
  cbn [app Reader.logical_lines fold_right]. now rewrite Hb, Hn, IH.
Qed.

Lemma logical_lines_escaped (v rest : str) :
  Reader.logical_lines (Spec.escape_one_pass v ++ rest)
  = fold_right Reader.push (Reader.logical_lines rest)
      (Spec.escape_one_pass v).
Proof.
  induction v as [|c v IH]; [reflexivity|].
  rewrite one_pass_cons, <- app_assoc.
  destruct (Spec.special c) eqn:E.
  - cbn [app Reader.logical_lines fold_right].
    rewrite N.eqb_refl. now rewrite IH.
  - destruct (special_false c E) as [Hb Hn]. apply N.eqb_neq in Hb, Hn.
    cbn [app Reader.logical_lines fold_right]. now rewrite Hb, Hn, IH.
Qed.

(** An entry line and its newline are one line of the document. *)
Lemma logical_lines_entry (k v rest : str) :
  Reader.plain_key k ->
  Reader.logical_lines (Spec.entry_line (k, v) ++ LF :: rest)
  = Spec.entry_line (k, v) :: Reader.logical_lines rest.
Proof.
  intros Hk. unfold Spec.entry_line. cbn [fst snd].
  rewrite escape_one_pass, <- !app_assoc.
  rewrite logical_lines_plain
    by (eapply List.Forall_impl; [|exact Hk]; cbv beta; tauto).
  rewrite (logical_lines_plain [EQUALS])
    by (repeat constructor; discriminate).
  rewrite logical_lines_escaped.
  change (Reader.logical_lines (LF :: rest))
    with ([] :: Reader.logical_lines rest).
  rewrite fold_push, app_nil_r. cbn [fold_right Reader.push].
  now rewrite fold_push.
Qed.

Lemma logical_lines_entries (metadata : items) :
  Forall (fun kv => Reader.plain_key (fst kv)) metadata ->
  Reader.logical_lines
    (concat (map (fun l => l ++ [LF]) (map Spec.entry_line metadata)))
  = map Spec.entry_line metadata ++ [[]].
Proof.
  induction 1 as [|[k v] metadata Hk Hm IH]; [reflexivity|].
  cbn [map concat]. rewrite <- app_assoc. cbn [app].
  rewrite logical_lines_entry by exact Hk. now rewrite IH.
Qed.

Lemma split_key_entry (k rest : str) :
  Reader.plain_key k ->
  Reader.split_key (k ++ EQUALS :: rest) = (k, rest).
Proof.
  induction 1 as [|c k (_ & _ & He) Hk IH].
  - cbn [app Reader.split_key]. now rewrite N.eqb_refl.
  - apply N.eqb_neq in He. cbn [app Reader.split_key].
    now rewrite He, IH.
Qed.

Lemma parse_entry_line (k v : str) :
  Reader.plain_key k -> Reader.parse_entry (Spec.entry_line (k, v)) = (k, v).
Proof.
  intros Hk. unfold Reader.parse_entry, Spec.entry_line. cbn [fst snd app].
  rewrite split_key_entry by exact Hk.
  now rewrite escape_one_pass, unescape_one_pass.
Qed.

(** X5: when no key contains a backslash, a newline or an equals sign,
    the newlines of the document that no backslash escapes cut it into
    the header line, one line per pair in the given order, and the empty
    text after the final newline: a newline inside a value never ends a
    line. *)
Theorem ffmeta_content_logical_lines (metadata : items) :
  Forall (fun kv => Reader.plain_key (fst kv)) metadata ->
  Reader.logical_lines (ffmeta_content metadata)
  = ffmeta_lines metadata ++ [[]].
Proof.
  intros Hk. unfold ffmeta_content. rewrite ffmeta_lines_map.
  rewrite join_terminated. cbn [map concat]. rewrite <- app_assoc.
  cbn [app].
  rewrite (logical_lines_plain FFMETADATA1)
    by (vm_compute; repeat constructor; discriminate).
  change (Reader.logical_lines (LF :: ?x))
    with ([] :: Reader.logical_lines x).
  rewrite fold_push, app_nil_r, logical_lines_entries by exact Hk.
  reflexivity.
Qed.

Lemma ffmeta_content_logical_lines_witness :
  Forall (fun kv => Reader.plain_key (fst kv))
    [(py "TITLE", [LF; BACKSLASH; EQUALS])]
  /\ Reader.logical_lines
       (ffmeta_content [(py "TITLE", [LF; BACKSLASH; EQUALS])])
     = [py ";FFMETADATA1";
        py "TITLE=" ++ [BACKSLASH; LF; BACKSLASH; BACKSLASH;
                        BACKSLASH; EQUALS];
        []].
Proof.
  assert (H : Forall (fun kv => Reader.plain_key (fst kv))
                [(py "TITLE", [LF; BACKSLASH; EQUALS])])
    by (vm_compute; repeat constructor; discriminate).
  split; [exact H|].
  rewrite (ffmeta_content_logical_lines _ H). vm_compute. reflexivity.
Defined.

Lemma read_document_entries (metadata : items) :
  Forall (fun kv => Reader.plain_key (fst kv)) metadata ->
  Reader.read_document (ffmeta_content metadata) = metadata.
Proof.
  intros Hk. unfold Reader.read_document, ffmeta_content.
  rewrite ffmeta_lines_map, join_terminated.
  cbn [map concat]. rewrite <- app_assoc. cbn [app].
  rewrite (logical_lines_plain FFMETADATA1)
    by (vm_compute; repeat constructor; discriminate).
  change (Reader.logical_lines (LF :: ?x))
    with ([] :: Reader.logical_lines x).
  rewrite fold_push, logical_lines_entries by exact Hk.
  cbn [tl]. rewrite removelast_last, map_map.
  induction Hk as [|[k v] metadata Hk Hm IH]; [reflexivity|].
  cbn [map]. now rewrite IH, parse_entry_line.
Qed.

(** X6: when no key contains a backslash, a newline or an equals sign,
    reading the document (its lines cut at the unescaped newlines, each
    entry line cut at its first equals sign, the value unescaped) gives
    back the pairs, keys and values, in their order. *)
Theorem read_document_ffmeta_content (metadata : items) :
  Forall (fun kv => Reader.plain_key (fst kv)) metadata ->
  Reader.read_document (ffmeta_content metadata) = metadata.
Proof. apply read_document_entries. Qed.

Lemma read_document_ffmeta_content_witness :
  Forall (fun kv => Reader.plain_key (fst kv))
    [(py "TITLE", py "a=b;c#d\e" ++ [LF] ++ py "f");
     (py "TITLE", py "Glyph")]
  /\ Reader.read_document
       (ffmeta_content
          [(py "TITLE", py "a=b;c#d\e" ++ [LF] ++ py "f");
           (py "TITLE", py "Glyph")])
     = [(py "TITLE", py "a=b;c#d\e" ++ [LF] ++ py "f");
        (py "TITLE", py "Glyph")].
Proof.
  assert (H : Forall (fun kv => Reader.plain_key (fst kv))
                [(py "TITLE", py "a=b;c#d\e" ++ [LF] ++ py "f");
                 (py "TITLE", py "Glyph")])
    by (vm_compute; repeat constructor; discriminate).
  split; [exact H|]. exact (read_document_ffmeta_content _ H).
Defined.

End DocumentReader.

(* ================================================================== *)
(** * More on the chunk encoder *)
(* ================================================================== *)

Section ChunkEncoderMore.

Import Base64.

Lemma check_unescaped : all_below 64 Reader.unescaped_char = true.
Proof. vm_compute. reflexivity. Qed.

(** Every byte of the unpadded encoding is the character of a 6-bit
    value. *)
Lemma body_b64chars (B : bytes) :
  Forall (fun b => exists i, i < 64 /\ b = b64char i) (body B).
Proof.
  induction B as [|a|a b|a b c rest IH] using bytes_ind3.
  - constructor.
  - destruct (sextets_lt a a) as (? & _ & _ & _ & ? & _).
    cbn [body enc1 firstn]. repeat constructor; eauto.
  - destruct (sextets_lt a b) as (? & ? & _).
    destruct (sextets_lt b b) as (_ & _ & _ & _ & _ & ?).
    cbn [body enc2 firstn]. repeat constructor; eauto.
  - destruct (sextets_lt a b) as (? & ? & _).
    destruct (sextets_lt b c) as (_ & _ & ? & _).
    destruct (sextets_lt c c) as (_ & _ & _ & ? & _).
    rewrite body_step. apply Forall_app. split; [|exact IH].
    unfold enc3. repeat constructor; eauto.
Qed.

(** What holds of the newline and of the 64 characters holds of every
    character of a block. *)
Lemma block_chars (P : char -> Prop) (B : bytes) :
  P LF -> (forall i, i < 64 -> P (Byte.to_N (b64char i))) ->
  Forall P (Py.join [LF] (Spec.chunks 76 (map Byte.to_N (body B))) ++ [LF]).
Proof.
  intros Hlf Hch. apply Forall_app. split; [|now repeat constructor].
  apply join_all; [now repeat constructor|].
  apply chunks_all. apply Forall_map.
  eapply List.Forall_impl; [|apply body_b64chars].
  intros b (i & Hi & ->). now apply Hch.
Qed.

(** X7: every character of a block is a newline or one of the 64
    characters of the base64 alphabet. *)
Theorem block_alphabet (B : bytes) :
  exists block : str,
    _b64_strip_and_chunk B = Some block
    /\ Forall (fun c => c = LF \/ Reader.in_alphabet c = true) block.
Proof.
  eexists. split; [apply chunk_is_parts|].
  apply block_chars; [now left|].
  intros i Hi. right. unfold Reader.in_alphabet.
  now rewrite (proj1 (alphabet_char i Hi)).
Qed.

(** X8: in a block the escaper changes the newlines only: escaping the
    block puts a backslash before each of its newlines and nothing
    else, so every data line of the AUTHOR and CUSTOM1 values goes into
    the document as it is. *)
Theorem escape_block (B : bytes) :
  exists block : str,
    _b64_strip_and_chunk B = Some block
    /\ _escape_ffmeta block = Spec.each LF [BACKSLASH; LF] block.
Proof.
  eexists. split; [apply chunk_is_parts|].
  rewrite escape_one_pass. unfold Spec.escape_one_pass, Spec.each.
  assert (H : Forall (fun c => (if Spec.special c then [BACKSLASH; c] else [c])
                               = (if c =? LF then [BACKSLASH; LF] else [c]))
                (Py.join [LF] (Spec.chunks 76 (map Byte.to_N (body B)))
                 ++ [LF])).
  { apply block_chars; [reflexivity|].
    intros i Hi.
    pose proof (all_below_spec _ _ check_unescaped i Hi) as Hu.
    unfold Reader.unescaped_char in Hu. apply negb_true_iff in Hu.
    rewrite Hu. destruct (special_false _ Hu) as [_ Hn].
    apply N.eqb_neq in Hn. now rewrite Hn. }
  induction H as [|c l Hc Hl IH]; [reflexivity|].
  cbn [flat_map]. now rewrite Hc, IH.
Qed.

Lemma chunks_upto_nil (fuel : nat) : Spec.chunks_upto fuel 76 [] = [].
Proof. now destruct fuel. Qed.

(** The pieces: full ones, then a last one that is not empty. *)
Lemma chunks_shape (fuel : nat) (s : str) :
  Spec.chunks_upto fuel 76 s = []
  \/ exists ps q,
       Spec.chunks_upto fuel 76 s = ps ++ [q]
       /\ Forall (fun p => length p = 76%nat) ps
       /\ (1 <= length q <= 76)%nat.
Proof.
  revert s. induction fuel as [|fuel IH]; intros s; [now left|].
  destruct s as [|c s]; [now left|]. right.
  cbn [Spec.chunks_upto].
  destruct (IH (skipn 76 (c :: s))) as [E|(ps & q & E & Hps & Hq)].
  - exists [], (firstn 76 (c :: s)). rewrite E. split; [reflexivity|].
    split; [constructor|]. rewrite length_firstn. cbn [length]. lia.
  - exists (firstn 76 (c :: s) :: ps), q. rewrite E.
    split; [reflexivity|]. split; [|exact Hq].
    constructor; [|exact Hps].
    rewrite length_firstn.
    assert (Hk : skipn 76 (c :: s) <> []).
    { intros Hnil. rewrite Hnil, chunks_upto_nil in E.
      now destruct ps. }
    assert (Hlen : (76 < length (c :: s))%nat).
    { destruct (Nat.le_gt_cases (length (c :: s)) 76) as [Hle|Hgt];
        [|exact Hgt].
      now rewrite skipn_all2 in Hk. }
    lia.
Qed.

(** X9: a block is its data lines joined by newlines and one final
    newline; the data lines together are the base64 text without its
    padding; every data line but the last has exactly 76 characters and
    the last has between 1 and 76; there is no data line only for no
    bytes. *)
Theorem block_lines (B : bytes) :
  exists parts : list str,
    _b64_strip_and_chunk B = Some (Py.join [LF] parts ++ [LF])
    /\ concat parts
       = Py.rstrip [EQUALS] (map Byte.to_N (b64encode B))
    /\ ((parts = [] /\ B = [])
        \/ exists ps q,
             parts = ps ++ [q]
             /\ Forall (fun p => length p = 76%nat) ps
             /\ (1 <= length q <= 76)%nat).
Proof.
  exists (Spec.chunks 76 (map Byte.to_N (body B))).
  split; [apply chunk_is_parts|]. split.
  - rewrite rstrip_b64encode. unfold Spec.chunks.
    now apply chunks_concat.
  - unfold Spec.chunks.
    destruct (chunks_shape (length (map Byte.to_N (body B)))
                (map Byte.to_N (body B))) as [E|H]; [|now right].
    left. split; [exact E|].
    destruct B as [|a B]; [reflexivity|]. exfalso.
    destruct (chunks_nonempty (map Byte.to_N (body (a :: B))))
      as (c & p & ps & E').
    { pose proof (body_nonempty (a :: B) ltac:(discriminate)).
      destruct (body (a :: B)); [congruence | discriminate]. }
    unfold Spec.chunks in E'. congruence.
Qed.

Lemma body_length (B : bytes) :
  length (body B) = ((4 * length B + 2) / 3)%nat.
Proof.
  induction B as [|a|a b|a b c rest IH] using bytes_ind3;
    try reflexivity.
  rewrite body_step, length_app, IH.
  change (length (enc3 a b c)) with 4%nat. cbn [length].
  replace (4 * S (S (S (length rest))) + 2)%nat
    with ((4 * length rest + 2) + 4 * 3)%nat by lia.
  rewrite Nat.div_add by lia. lia.
Qed.

(** X10: a block of n bytes holds the 4n/3 (rounded up) characters of
    the unpadded base64 text, besides its newlines. *)
Theorem block_size (B : bytes) :
  exists block : str,
    _b64_strip_and_chunk B = Some block
    /\ length (Spec.remove_newlines block)
       = ((4 * length B + 2) / 3)%nat.
Proof.
  eexists. split; [apply chunk_is_parts|].
  rewrite remove_newlines_block.
  - unfold Spec.chunks. rewrite chunks_concat by reflexivity.
    now rewrite length_map, body_length.
  - apply chunks_all. apply body_chars. intros b (_ & _ & Hb). exact Hb.
Qed.

Lemma decode_chunks (B : bytes) :
  Reader.decode_block
    (Py.join [LF] (Spec.chunks 76 (map Byte.to_N (body B))) ++ [LF])
  = Some B.
Proof.
  unfold Reader.decode_block. rewrite remove_newlines_block.
  - unfold Spec.chunks. rewrite chunks_concat by reflexivity.
    rewrite restore_padding_body. apply b64decode_b64encode.
  - apply chunks_all. apply body_chars. intros b (_ & _ & Hb). exact Hb.
Qed.

(** X11: the chunk encoder is injective: byte sequences with the same
    block are the same. *)
Theorem b64_strip_and_chunk_injective (B B' : bytes) :
  _b64_strip_and_chunk B = _b64_strip_and_chunk B' -> B = B'.
Proof.
  rewrite !chunk_is_parts. intros H.
  assert (E : Some B = Some B'); [|congruence].
  rewrite <- (decode_chunks B), <- (decode_chunks B'). congruence.
Qed.

Lemma b64_strip_and_chunk_injective_witness :
  _b64_strip_and_chunk (bytes_of [104; 105])
  = _b64_strip_and_chunk (bytes_of [104; 105])
  /\ bytes_of [104; 105] = bytes_of [104; 105].
Proof.
  split; [reflexivity|].
  apply (b64_strip_and_chunk_injective (bytes_of [104; 105])
           (bytes_of [104; 105])).
  reflexivity.
Defined.

End ChunkEncoderMore.

(* ================================================================== *)
(** * More on the CSV normaliser *)
(* ================================================================== *)

Section NormaliserMore.

(** The normalised text depends on the text through its lines only. *)
Lemma norm_text_lines (T U : str) :
  Py.splitlines T = Py.splitlines U -> norm_text T = norm_text U.
Proof.
  intros E. unfold norm_text, norm_lines, lines. now rewrite E.
Qed.

(** X12: splitting the normalised text of a text that is not empty
    gives the processed lines back, one for each line of the text: no
    line is lost, joined or cut. *)
Theorem splitlines_norm_text (T : str) :
  T <> [] ->
  Py.splitlines (norm_text T) = norm_lines T
  /\ length (norm_lines T) = length (Py.splitlines T).
Proof.
  intros HT. split.
  - rewrite (norm_text_terminated T HT), norm_lines_spec.
    apply splitlines_terminated. apply Forall_map.
    eapply List.Forall_impl; [|apply splitlines_nobreak].
    apply normalize_line_nobreak.
  - rewrite norm_lines_spec. apply length_map.
Qed.

Lemma splitlines_norm_text_witness :
  py "a ,," ++ [LF; LF] ++ py "b" <> []
  /\ Py.splitlines (norm_text (py "a ,," ++ [LF; LF] ++ py "b"))
     = [py "a,"; py ","; py "b,"].
Proof.
  split; [discriminate|].
  destruct (splitlines_norm_text (py "a ,," ++ [LF; LF] ++ py "b"))
    as [H _]; [discriminate|].
  rewrite H. vm_compute. reflexivity.
Defined.

Lemma splitlines_line_lf (l rest : str) :
  Spec.nobreak l ->
  Py.splitlines (l ++ [LF] ++ rest) = l :: Py.splitlines rest.
Proof.
  induction 1 as [|c l Hc Hl IH].
  - cbn [app Py.splitlines]. change (Py.is_linebreak LF) with true.
    cbv iota. change (LF =? 13) with false. cbn [andb].
    now destruct rest.
  - change ((c :: l) ++ [LF] ++ rest) with (c :: (l ++ [LF] ++ rest)).
    rewrite splitlines_cons_nobreak by assumption. now rewrite IH.
Qed.

(** A carriage return ends a line by itself when no line feed follows. *)
Lemma splitlines_line_cr (l rest : str) :
  Spec.nobreak l -> hd 0 rest <> LF ->
  Py.splitlines (l ++ [CR] ++ rest) = l :: Py.splitlines rest.
Proof.
  intros Hl Hrest. induction Hl as [|c l Hc Hl IH].
  - cbn [app Py.splitlines]. change (Py.is_linebreak CR) with true.
    cbv iota. destruct rest as [|d rest]; [reflexivity|].
    cbn [hd] in Hrest. apply N.eqb_neq in Hrest.
    change (CR =? 13) with true. cbn [andb].
    change (d =? 10) with (d =? LF). now rewrite Hrest.
  - change ((c :: l) ++ [CR] ++ rest) with (c :: (l ++ [CR] ++ rest)).
    rewrite splitlines_cons_nobreak by assumption. now rewrite IH.
Qed.

Lemma splitlines_terminated_lf (ls : list str) :
  Forall Spec.nobreak ls ->
  Py.splitlines (Reader.terminated_by [LF] ls) = ls.
Proof.
  induction 1 as [|l ls Hl Hls IH]; [reflexivity|].
  unfold Reader.terminated_by in *. cbn [map concat].
  rewrite <- app_assoc, splitlines_line_lf by assumption. now rewrite IH.
Qed.

Lemma hd_terminated_cr (ls : list str) :
  Forall Spec.nobreak ls -> hd 0 (Reader.terminated_by [CR] ls) <> LF.
Proof.
  intros H. destruct H as [|l ls Hl Hls]; [discriminate|].
  unfold Reader.terminated_by. cbn [map concat].
  destruct Hl as [|c l Hc Hl]; [discriminate|].
  cbn [app hd]. intros ->. discriminate.
Qed.

Lemma splitlines_terminated_cr (ls : list str) :
  Forall Spec.nobreak ls ->
  Py.splitlines (Reader.terminated_by [CR] ls) = ls.
Proof.
  induction 1 as [|l ls Hl Hls IH]; [reflexivity|].
  change (Reader.terminated_by [CR] (l :: ls))
    with ((l ++ [CR]) ++ Reader.terminated_by [CR] ls).
  rewrite <- app_assoc, splitlines_line_cr, IH;
    [reflexivity | assumption | now apply hd_terminated_cr].
Qed.

(** X13: the line-ending convention of the input makes no difference:
    the same lines ended by LF, by CR or by CRLF normalise to the same
    text. *)
Theorem norm_text_line_endings (ls : list str) :
  Forall Spec.nobreak ls ->
  norm_text (Reader.terminated_by [LF] ls)
  = norm_text (Reader.terminated_by [CR; LF] ls)
  /\ norm_text (Reader.terminated_by [CR] ls)
     = norm_text (Reader.terminated_by [CR; LF] ls).
Proof.
  intros H.
  pose proof (splitlines_terminated ls H) as Hcrlf.
  change (Spec.terminated ls) with (Reader.terminated_by [CR; LF] ls)
    in Hcrlf.
  split; apply norm_text_lines; rewrite Hcrlf.
  - now apply splitlines_terminated_lf.
  - now apply splitlines_terminated_cr.
Qed.

Lemma norm_text_line_endings_witness :
  Forall Spec.nobreak [py "1,2"; []; py "3 "]
  /\ norm_text (Reader.terminated_by [LF] [py "1,2"; []; py "3 "])
     = norm_text (Reader.terminated_by [CR; LF] [py "1,2"; []; py "3 "]).
Proof.
  assert (H : Forall Spec.nobreak [py "1,2"; []; py "3 "])
    by (repeat constructor).
  split; [exact H|]. exact (proj1 (norm_text_line_endings _ H)).
Defined.

Lemma splitlines_last_line (l : str) :
  Spec.nobreak l -> l <> [] -> Py.splitlines l = [l].
Proof.
  induction 1 as [|c l Hc Hl IH]; [congruence|]. intros _.
  rewrite splitlines_cons_nobreak by assumption.
  destruct l as [|d l]; [reflexivity|].
  now rewrite IH by discriminate.
Qed.

(** X14: a line ending after the last line makes no difference: a
    last line that is not empty normalises the same with and without
    its terminator. *)
Theorem norm_text_final_newline (ls : list str) (l : str) :
  Forall Spec.nobreak ls -> Spec.nobreak l -> l <> [] ->
  norm_text (Reader.terminated_by [LF] ls ++ l)
  = norm_text (Reader.terminated_by [LF] (ls ++ [l])).
Proof.
  intros Hls Hl Hne. apply norm_text_lines.
  rewrite splitlines_terminated_lf
    by (apply Forall_app; split; [exact Hls | now constructor]).
  induction Hls as [|k ls Hk Hls IH].
  - now apply splitlines_last_line.
  - unfold Reader.terminated_by in *. cbn [map concat].
    rewrite <- !app_assoc, splitlines_line_lf by assumption.
    cbn [app]. now rewrite IH.
Qed.

Lemma norm_text_final_newline_witness :
  Forall Spec.nobreak [py "x,"] /\ Spec.nobreak (py "y") /\ py "y" <> []
  /\ norm_text (Reader.terminated_by [LF] [py "x,"] ++ py "y")
     = norm_text (Reader.terminated_by [LF] ([py "x,"] ++ [py "y"])).
Proof.
  assert (H1 : Forall Spec.nobreak [py "x,"]) by (repeat constructor).
  assert (H2 : Spec.nobreak (py "y")) by (repeat constructor).
  assert (H3 : py "y" <> []) by discriminate.
  split; [exact H1|]. split; [exact H2|]. split; [exact H3|].
  exact (norm_text_final_newline _ _ H1 H2 H3).
Defined.

End NormaliserMore.

(* ================================================================== *)
(** * The normalised text as UTF-8 *)
(* ================================================================== *)

Section AuthorRaw.

Lemma encode_utf8_char_none (c : char) :
  Py.encode_utf8_char c = None <-> Reader.is_scalar c = false.
Proof.
  unfold Py.encode_utf8_char, Reader.is_scalar.
  destruct (N.ltb_spec c 128); destruct (N.ltb_spec c 2048);
    destruct (N.ltb_spec c 65536); destruct (N.leb_spec 55296 c);
    destruct (N.leb_spec c 57343); destruct (N.ltb_spec c 1114112);
    destruct (N.ltb_spec c 55296); destruct (N.ltb_spec 57343 c);
    cbn [andb orb]; split; intros; try congruence; lia.
Qed.

Lemma encode_utf8_none (s : str) :
  Py.encode_utf8 s = None
  <-> Exists (fun c => Reader.is_scalar c = false) s.
Proof.
  induction s as [|c s IH].
  - split; [discriminate | intros H; inversion H].
  - cbn [Py.encode_utf8]. rewrite Exists_cons, <- IH, <- encode_utf8_char_none.
    destruct (Py.encode_utf8_char c), (Py.encode_utf8 s);
      split; intuition congruence.
Qed.

Lemma nonscalar_kept (c : char) :
  Reader.is_scalar c = false ->
  Py.is_linebreak c = false /\ Py.mem c [COMMA; SPACE; TAB] = false.
Proof.
  unfold Reader.is_scalar. rewrite orb_false_iff, N.ltb_ge. intros [H _].
  rewrite mem_strippable. unfold Py.is_linebreak, Spec.strippable.
  rewrite !orb_false_iff, !N.eqb_neq. unfold COMMA, SPACE, TAB.
  repeat split; lia.
Qed.

Lemma concat_push (c : char) (ls : list str) :
  concat (match ls with [] => [[c]] | l :: ls' => (c :: l) :: ls' end)
  = c :: concat ls.
Proof. now destruct ls. Qed.

(** The lines together are the text without its line terminators. *)
Lemma concat_splitlines (s : str) :
  concat (Py.splitlines s)
  = List.filter (fun c => negb (Py.is_linebreak c)) s.
Proof.
  induction s as [s IH] using str_length_ind.
  destruct s as [|c s]; [reflexivity|].
  destruct (Py.is_linebreak c) eqn:Ec.
  - cbn [Py.splitlines List.filter]. rewrite Ec. cbn [negb].
    destruct s as [|d s]; [reflexivity|].
    destruct ((c =? 13) && (d =? 10)) eqn:E.
    + apply andb_true_iff in E. destruct E as [_ Ed].
      apply N.eqb_eq in Ed. subst d. cbn [concat app List.filter].
      change (Py.is_linebreak 10) with true. cbn [negb].
      apply IH. simpl. lia.
    + cbn [concat app]. apply IH. simpl. lia.
  - rewrite splitlines_cons_nobreak by assumption.
    rewrite concat_push. cbn [List.filter]. rewrite Ec. cbn [negb].
    f_equal. apply IH. simpl. lia.
Qed.

Lemma in_join (sep p : str) (parts : list str) (c : char) :
  In p parts -> In c p -> In c (Py.join sep parts).
Proof.
  intros Hp Hc. induction parts as [|q parts IH]; [destruct Hp|].
  destruct parts as [|r parts].
  - destruct Hp as [->|[]]. exact Hc.
  - rewrite join_cons2. apply in_or_app. destruct Hp as [->|Hp].
    + now left.
    + right. apply in_or_app. right. now apply IH.
Qed.

(** A character that is no line terminator, comma, space or tab stays
    in the normalised text. *)
Lemma norm_text_keeps (T : str) (c : char) :
  In c T -> Py.is_linebreak c = false ->
  Py.mem c [COMMA; SPACE; TAB] = false ->
  In c (norm_text T).
Proof.
  intros Hin Hb Hs.
  assert (Hc : In c (concat (Py.splitlines T))).
  { rewrite concat_splitlines. apply filter_In. split; [exact Hin|].
    now rewrite Hb. }
  apply in_concat in Hc. destruct Hc as (l & Hl & Hcl).
  unfold norm_text. apply in_or_app. left.
  apply (in_join _ (Py.rstrip [COMMA; SPACE; TAB] l ++ [COMMA])).
  - unfold norm_lines. rewrite lines_splitlines.
    apply in_map_iff. now exists l.
  - apply in_or_app. left.
    destruct (rstrip_suffix [COMMA; SPACE; TAB] l) as (t & Ht & Hall).
    rewrite Ht in Hcl. apply in_app_or in Hcl.
    destruct Hcl as [Hr|Ht']; [exact Hr|].
    rewrite List.Forall_forall in Hall. rewrite (Hall _ Ht') in Hs.
    discriminate.
Qed.

(** The normalised text holds characters of the text, commas, carriage
    returns and line feeds only. *)
Lemma norm_text_chars (T : str) (P : char -> Prop) :
  Forall P T -> P COMMA -> P CR -> P LF -> Forall P (norm_text T).
Proof.
  intros HT Hcomma Hcr Hlf. unfold norm_text.
  apply Forall_app. split; [|now repeat constructor].
  apply join_all; [now repeat constructor|].
  unfold norm_lines. rewrite lines_splitlines. apply Forall_map.
  apply List.Forall_forall. intros l Hl.
  apply Forall_app. split; [|now repeat constructor].
  destruct (rstrip_suffix [COMMA; SPACE; TAB] l) as (t & Ht & _).
  assert (Hall : Forall P l).
  { apply List.Forall_forall. intros c Hc.
    rewrite List.Forall_forall in HT. apply HT.
    assert (Hcc : In c (concat (Py.splitlines T)))
      by (apply in_concat; now exists l).
    rewrite concat_splitlines in Hcc. now apply filter_In in Hcc. }
  rewrite Ht in Hall. now apply Forall_app in Hall.
Qed.

(** X15: the normaliser, which ends with the UTF-8 encoding, fails
    exactly on a text that holds a code point UTF-8 cannot encode (a
    surrogate): stripping and splitting never remove such a code point
    and never add one. *)
Theorem author_raw_fails_iff (T : str) :
  author_raw T = None
  <-> Exists (fun c => Reader.is_scalar c = false) T.
Proof.
  unfold author_raw. rewrite encode_utf8_none, !List.Exists_exists. split.
  - intros (c & Hc & Hns).
    assert (H : Forall (fun d => Reader.is_scalar d = true \/ In d T)
                  (norm_text T)).
    { apply norm_text_chars; try (now left).
      apply List.Forall_forall. intros d Hd. now right. }
    rewrite List.Forall_forall in H.
    destruct (H c Hc) as [Hs|Hin]; [congruence|]. now exists c.
  - intros (c & Hc & Hns). exists c. split; [|exact Hns].
    destruct (nonscalar_kept c Hns) as [Hb Hs].
    now apply norm_text_keeps.
Qed.

Lemma byte_of_N_ascii (c : char) :
  c < 128 -> Byte.to_N (Py.byte_of_N c) = c.
Proof.
  intros Hc. unfold Py.byte_of_N.
  rewrite N.mod_small by lia.
  destruct (Byte.of_N c) as [b|] eqn:E.
  - now apply Byte.to_of_N.
  - apply Byte.of_N_None_iff in E. lia.
Qed.

Lemma encode_utf8_ascii (s : str) :
  Forall (fun c => c < 128) s ->
  exists b, Py.encode_utf8 s = Some b /\ map Byte.to_N b = s.
Proof.
  induction 1 as [|c s Hc Hs (b & Hb & Hmap)]; [now exists []|].
  exists (Py.byte_of_N c :: b). cbn [Py.encode_utf8].
  unfold Py.encode_utf8_char. apply N.ltb_lt in Hc as Hc'.
  rewrite Hc', Hb. split; [reflexivity|].
  cbn [map]. now rewrite byte_of_N_ascii, Hmap.
Qed.

(** X16: for an ASCII text the normaliser returns one byte per
    character of the normalised text, with the character's code. *)
Theorem author_raw_ascii (T : str) :
  Forall (fun c => c < 128) T ->
  exists raw : bytes,
    author_raw T = Some raw /\ map Byte.to_N raw = norm_text T.
Proof.
  intros H. apply encode_utf8_ascii.
  apply norm_text_chars; [exact H | reflexivity..].
Qed.

Lemma author_raw_ascii_witness :
  Forall (fun c => c < 128) (py "1,2")
  /\ exists raw : bytes,
       author_raw (py "1,2") = Some raw
       /\ map Byte.to_N raw = py "1,2," ++ CRLF.
Proof.
  assert (H : Forall (fun c => c < 128) (py "1,2"))
    by (repeat constructor).
  split; [exact H|].
  destruct (author_raw_ascii _ H) as (raw & E & Hraw).
  exists raw. split; [exact E|]. rewrite Hraw. vm_compute. reflexivity.
Defined.

End AuthorRaw.

(* ================================================================== *)
(** * The responses of the [/embed] handler *)
(* ================================================================== *)

Section Responses.

(** ** Inversion of the computations that returned *)

Lemma bind_ok {A B} (m : M A) (k : A -> M B) (w w' : world) (b : B) :
  bind m k w = (Ok b, w') ->
  exists a w1, m w = (Ok a, w1) /\ k a w1 = (Ok b, w').
Proof.
  unfold bind. destruct (m w) as [[a|e] w1]; [|discriminate].
  intros H. now exists a, w1.
Qed.

Lemma or_raise_ok {A} (x : option A) (e : str) (w w' : world) (a : A) :
  or_raise x e w = (Ok a, w') -> x = Some a /\ w' = w.
Proof.
  destruct x as [a'|]; unfold or_raise, ret, raise; intros H;
    [|discriminate].
  injection H as -> ->. now split.
Qed.

Lemma call_ok (o : option str) (w w' : world) (u : unit) :
  call o w = (Ok u, w') -> o = None /\ w' = w.
Proof.
  destruct o; unfold call, ret, raise; intros H; [discriminate|].
  injection H as _ ->. now split.
Qed.

Lemma tmp_ok (o : option str) (w w' : world) (p : nat) :
  NamedTemporaryFile o w = (Ok p, w') ->
  o = None /\ p = fresh w
  /\ w' = World ({[ fresh w ]} ∪ files w) (S (fresh w)).
Proof.
  unfold NamedTemporaryFile. destruct o; intros H; [discriminate|].
  injection H as <- <-. now repeat split.
Qed.

Lemma transcode_ok (T : tools) (src dst : nat) (w w' : world) (u : unit) :
  transcode_to_ogg_opus T src dst w = (Ok u, w') ->
  FFMPEG T <> None /\ check_call_raises T = None /\ w' = w.
Proof.
  unfold transcode_to_ogg_opus. destruct (FFMPEG T); [|discriminate].
  intros H. apply call_ok in H. destruct H. now repeat split.
Qed.

(** The [try] block returns only by sending the output file: ffmpeg
    is there and returned 0, every step before it succeeded, and the
    one file it created is the output file. *)
Lemma embed_try_ok (T : tools) (title csv_text base ext : str)
    (tmp_in tmp_ogg : nat) (w w' : world) (r : response) :
  embed_try T title csv_text base ext tmp_in tmp_ogg w = (Ok r, w') ->
  r = SendFile (fresh w) (base ++ py "_glyphed.ogg")
  /\ w' = World ({[ fresh w ]} ∪ files w) (S (fresh w))
  /\ FFMPEG T <> None
  /\ (exists input stderr, run_ffmpeg T input = Ok (0%Z, stderr))
  /\ send_file_raises T = None
  /\ (exists raw, author_raw csv_text = Some raw)
  /\ (if Reader.need_transcode T ext
      then check_call_raises T = None
      else copyfile_raises T = None).
Proof.
  unfold embed_try. cbv zeta. intros H.
  apply bind_ok in H. destruct H as (u & w1 & Hstep & H).
  assert (Hfirst : w1 = w
                   /\ (if Reader.need_transcode T ext
                       then check_call_raises T = None
                       else copyfile_raises T = None)).
  { unfold Reader.need_transcode.
    destruct (negb _ || negb _).
    - apply transcode_ok in Hstep. tauto.
    - apply call_ok in Hstep. tauto. }
  destruct Hfirst as [-> Hfirst].
  apply bind_ok in H. destruct H as (raw & w2 & Hraw & H).
  apply or_raise_ok in Hraw. destruct Hraw as [Hraw ->].
  apply bind_ok in H. destruct H as (author_b64 & w3 & Ha & H).
  apply or_raise_ok in Ha. destruct Ha as [_ ->].
  apply bind_ok in H. destruct H as (custom1_b64 & w4 & Hc & H).
  apply or_raise_ok in Hc. destruct Hc as [_ ->].
  apply bind_ok in H. destruct H as (out_path & w5 & Hout & H).
  apply tmp_ok in Hout. destruct Hout as (_ & -> & ->).
  apply bind_ok in H. destruct H as (input & w6 & Hin & H).
  apply or_raise_ok in Hin. destruct Hin as [_ ->].
  destruct (FFMPEG T) as [ffmpeg|]; [|discriminate].
  destruct (run_ffmpeg T input) as [[returncode stderr]|e] eqn:Hrun;
    [|discriminate].
  destruct (returncode =? 0)%Z eqn:Hrc; [|discriminate].
  cbn [negb] in H. apply Z.eqb_eq in Hrc. subst returncode.
  apply bind_ok in H. destruct H as (u' & w7 & Hsend & H).
  apply call_ok in Hsend. destruct Hsend as [Hsend ->].
  unfold ret in H. injection H as <- <-.
  repeat split; try assumption; try discriminate; eauto.
Qed.

(** The [finally] block never raises. *)
Lemma embed_finally_returns (tmp_in : nat) (w : world) :
  fst (embed_finally tmp_in w) = Ok tt.
Proof.
  unfold embed_finally, try_except, bind, path_exists, unlink, ret.
  destruct (bool_decide (tmp_in ∈ files w)) eqn:E;
    cbn; rewrite ?E; reflexivity.
Qed.

(** The handler on a request that passes the check, once the calls
    before the try block have returned: the [try] block with its
    handler, then the [finally] block, in the world with the two
    temporary files. *)
Lemma embed_entered (T : tools) (req : request) (w : world)
    (c : char) (name csv_text : str) :
  audio req = Some (c :: name) -> csv req = Some csv_text ->
  tmp_in_raises T (snd (secure_splitext T (c :: name))) = None ->
  save_raises T = None -> tmp_ogg_raises T = None ->
  embed T req w
  = try_finally
      (try_except
         (embed_try T (title_of (title req)) csv_text
            (fst (secure_splitext T (c :: name)))
            (snd (secure_splitext T (c :: name)))
            (fresh w) (S (fresh w)))
         (fun e => ret (Abort 500 (py "Embed failed: " ++ e))))
      (embed_finally (fresh w))
      (World ({[ S (fresh w) ]} ∪ ({[ fresh w ]} ∪ files w))
             (S (S (fresh w)))).
Proof.
  intros Ha Hc Hin Hs Hogg. unfold embed. rewrite Ha, Hc.
  cbn [Py.or_else].
  destruct (secure_splitext T (c :: name)) as [base ext].
  cbn [fst snd] in *.
  unfold bind, NamedTemporaryFile. rewrite Hin, Hs, Hogg. reflexivity.
Qed.

(** A request that does not pass the check of line 52. *)
Lemma embed_refused (T : tools) (req : request) (w : world) :
  audio req = None \/ audio req = Some [] \/ csv req = None ->
  embed T req w
  = (Ok (Abort 400 (py "Missing audio file or csv data")), w).
Proof.
  unfold embed. intros [H|[H|H]]; rewrite H; try reflexivity.
  now destruct (audio req) as [[|c name]|].
Qed.

(** A request whose first temporary file cannot be made. *)
Lemma embed_tmp_in_stops (T : tools) (req : request) (w : world)
    (c : char) (name csv_text e : str) :
  audio req = Some (c :: name) -> csv req = Some csv_text ->
  tmp_in_raises T (snd (secure_splitext T (c :: name))) = Some e ->
  embed T req w = (Exc e, w).
Proof.
  intros Ha Hc Hin. unfold embed. rewrite Ha, Hc. cbn [Py.or_else].
  destruct (secure_splitext T (c :: name)) as [base ext].
  cbn [snd] in Hin. unfold bind, NamedTemporaryFile. now rewrite Hin.
Qed.

(** A request whose upload cannot be saved. *)
Lemma embed_save_stops (T : tools) (req : request) (w : world)
    (c : char) (name csv_text e : str) :
  audio req = Some (c :: name) -> csv req = Some csv_text ->
  tmp_in_raises T (snd (secure_splitext T (c :: name))) = None ->
  save_raises T = Some e ->
  embed T req w
  = (Exc e, World ({[ fresh w ]} ∪ files w) (S (fresh w))).
Proof.
  intros Ha Hc Hin Hs. unfold embed. rewrite Ha, Hc. cbn [Py.or_else].
  destruct (secure_splitext T (c :: name)) as [base ext].
  cbn [snd] in Hin. unfold bind, NamedTemporaryFile.
  now rewrite Hin, Hs.
Qed.

(** A request whose second temporary file cannot be made. *)
Lemma embed_tmp_ogg_stops (T : tools) (req : request) (w : world)
    (c : char) (name csv_text e : str) :
  audio req = Some (c :: name) -> csv req = Some csv_text ->
  tmp_in_raises T (snd (secure_splitext T (c :: name))) = None ->
  save_raises T = None -> tmp_ogg_raises T = Some e ->
  embed T req w
  = (Exc e, World ({[ fresh w ]} ∪ files w) (S (fresh w))).
Proof.
  intros Ha Hc Hin Hs Hogg. unfold embed. rewrite Ha, Hc.
  cbn [Py.or_else].
  destruct (secure_splitext T (c :: name)) as [base ext].
  cbn [snd] in Hin. unfold bind, NamedTemporaryFile.
  now rewrite Hin, Hs, Hogg.
Qed.

(** The ways a request goes: refused by the check of line 52, stopped
    by one of the three calls before the try block, or run through the
    try block. *)
Lemma embed_cases (T : tools) (req : request) (w : world) :
  embed T req w
  = (Ok (Abort 400 (py "Missing audio file or csv data")), w)
  \/ exists c name csv_text,
       audio req = Some (c :: name) /\ csv req = Some csv_text
       /\ ((exists e,
              tmp_in_raises T (snd (secure_splitext T (c :: name)))
              = Some e
              /\ embed T req w = (Exc e, w))
           \/ (exists e,
                 (save_raises T = Some e \/ tmp_ogg_raises T = Some e)
                 /\ embed T req w
                    = (Exc e, World ({[ fresh w ]} ∪ files w)
                                    (S (fresh w))))
           \/ (tmp_in_raises T (snd (secure_splitext T (c :: name)))
               = None
               /\ save_raises T = None /\ tmp_ogg_raises T = None)).
Proof.
  destruct (audio req) as [[|c name]|] eqn:Ha;
    try (left; apply embed_refused; tauto).
  destruct (csv req) as [csv_text|] eqn:Hc;
    [|left; apply embed_refused; tauto].
  right. exists c, name, csv_text. split; [reflexivity|].
  split; [reflexivity|].
  destruct (tmp_in_raises T (snd (secure_splitext T (c :: name))))
    as [e|] eqn:Hin.
  { left. exists e. split; [reflexivity|].
    now apply (embed_tmp_in_stops T req w c name csv_text e). }
  destruct (save_raises T) as [e|] eqn:Hs.
  { right. left. exists e. split; [now left|].
    now apply (embed_save_stops T req w c name csv_text e). }
  destruct (tmp_ogg_raises T) as [e|] eqn:Hogg.
  { right. left. exists e. split; [now right|].
    now apply (embed_tmp_ogg_stops T req w c name csv_text e). }
  right. right. now repeat split.
Qed.

(** X17: a request without an audio file, with an audio file without
    a name, or without a csv field is answered with status 400, and no
    temporary file is created; an empty csv text is not a missing one. *)
Theorem embed_missing_input (T : tools) (req : request) (w : world) :
  audio req = None \/ audio req = Some [] \/ csv req = None ->
  embed T req w
  = (Ok (Abort 400 (py "Missing audio file or csv data")), w).
Proof. apply embed_refused. Qed.

Lemma embed_missing_input_witness :
  (audio (Request (Some (py "song.ogg")) None (Some (py "t"))) = None
   \/ audio (Request (Some (py "song.ogg")) None (Some (py "t"))) = Some []
   \/ csv (Request (Some (py "song.ogg")) None (Some (py "t"))) = None)
  /\ embed all_fine (Request (Some (py "song.ogg")) None (Some (py "t")))
       empty_world
     = (Ok (Abort 400 (py "Missing audio file or csv data")), empty_world).
Proof.
  assert (H : audio (Request (Some (py "song.ogg")) None (Some (py "t")))
              = None
              \/ audio (Request (Some (py "song.ogg")) None (Some (py "t")))
                 = Some []
              \/ csv (Request (Some (py "song.ogg")) None (Some (py "t")))
                 = None)
    by (right; right; reflexivity).
  split; [exact H|]. exact (embed_missing_input all_fine _ empty_world H).
Defined.

(** What the try block and the finally block leave as the answer. *)
Lemma embed_entered_answers (T : tools) (title csv_text base ext : str)
    (tmp_in tmp_ogg : nat) (w : world) :
  exists r : response,
    fst (try_finally
           (try_except
              (embed_try T title csv_text base ext tmp_in tmp_ogg)
              (fun e => ret (Abort 500 (py "Embed failed: " ++ e))))
           (embed_finally tmp_in) w)
    = Ok r
    /\ ((exists e, r = Abort 500 (py "Embed failed: " ++ e))
        \/ r = SendFile (fresh w) (base ++ py "_glyphed.ogg")).
Proof.
  unfold try_finally, try_except.
  destruct (embed_try T title csv_text base ext tmp_in tmp_ogg w)
    as [[r|e'] w3] eqn:Htry.
  - apply embed_try_ok in Htry. destruct Htry as (-> & _).
    pose proof (embed_finally_returns tmp_in w3) as Hf.
    destruct (embed_finally tmp_in w3) as [[u|e'] w4];
      cbn [fst] in Hf; [|discriminate].
    eexists. split; [reflexivity|]. now right.
  - unfold ret.
    pose proof (embed_finally_returns tmp_in w3) as Hf.
    destruct (embed_finally tmp_in w3) as [[u|e''] w4];
      cbn [fst] in Hf; [|discriminate].
    eexists. split; [reflexivity|]. left. eauto.
Qed.

(** X18: no exception raised inside the try block leaves the handler:
    its answer is then the status 400 of a missing input, a status 500
    whose text starts with Embed failed, or the output file, which is
    the third temporary file of the request.  An exception leaves the
    handler only when one of the three calls before the try block
    raises it: the making of the upload's temporary file (whose suffix
    is the extension of the upload's name), the saving of the upload,
    or the making of the intermediate temporary file; so it does for an
    upload whose extension makes the name of the temporary file too
    long. *)
Theorem embed_answers (T : tools) (req : request) (w : world) :
  match fst (embed T req w) with
  | Ok r =>
      r = Abort 400 (py "Missing audio file or csv data")
      \/ (exists e, r = Abort 500 (py "Embed failed: " ++ e))
      \/ (exists name, r = SendFile (S (S (fresh w))) name)
  | Exc e =>
      exists c name,
        audio req = Some (c :: name) /\ csv req <> None
        /\ (tmp_in_raises T (snd (secure_splitext T (c :: name))) = Some e
            \/ save_raises T = Some e
            \/ tmp_ogg_raises T = Some e)
  end
  /\ embed name_too_long a_request empty_world
     = (Exc (py "OSError"), empty_world).
Proof.
  split; [|vm_compute; reflexivity].
  destruct (embed_cases T req w)
    as [E|(c & name & csv_text & Ha & Hc
           & [(e & Hin & E)|[(e & Hr & E)|(Hin & Hs & Hogg)]])].
  - rewrite E. now left.
  - rewrite E. exists c, name. rewrite Hc.
    split; [exact Ha|]. split; [discriminate|]. now left.
  - rewrite E. exists c, name. rewrite Hc.
    split; [exact Ha|]. split; [discriminate|]. right. exact Hr.
  - rewrite (embed_entered T req w c name csv_text Ha Hc Hin Hs Hogg).
    match goal with
    | |- context [embed_try ?a ?b ?c ?d ?e ?f ?g] =>
        destruct (embed_entered_answers a b c d e f g
                    (World ({[ S (fresh w) ]} ∪ ({[ fresh w ]} ∪ files w))
                           (S (S (fresh w)))))
          as (r & Er & Hr)
    end.
    rewrite Er. destruct Hr as [Hr|Hr].
    + right. now left.
    + right. right. subst r. cbn [fresh]. eauto.
Qed.

(** X19: when the upload's temporary file is made and saving the
    upload raises, the exception leaves the handler (the save is before
    the try block) and the temporary file made for the upload stays. *)
Theorem embed_save_raises (T : tools) (req : request) (w : world)
    (c : char) (name csv_text e : str) :
  audio req = Some (c :: name) -> csv req = Some csv_text ->
  tmp_in_raises T (snd (secure_splitext T (c :: name))) = None ->
  save_raises T = Some e ->
  embed T req w
  = (Exc e, World ({[ fresh w ]} ∪ files w) (S (fresh w))).
Proof. apply embed_save_stops. Qed.

Lemma embed_save_raises_witness :
  audio a_request = Some (115 :: py "ong.ogg")
  /\ csv a_request = Some (py "1,2,3")
  /\ tmp_in_raises save_fails
       (snd (secure_splitext save_fails (115 :: py "ong.ogg"))) = None
  /\ save_raises save_fails = Some (py "OSError")
  /\ embed save_fails a_request empty_world
     = (Exc (py "OSError"),
        World ({[ fresh empty_world ]} ∪ files empty_world)
              (S (fresh empty_world))).
Proof.
  split; [reflexivity|]. split; [reflexivity|].
  split; [reflexivity|]. split; [reflexivity|].
  exact (embed_save_raises save_fails a_request empty_world
           115 (py "ong.ogg") (py "1,2,3") (py "OSError")
           eq_refl eq_refl eq_refl eq_refl).
Defined.

End Responses.

(* ================================================================== *)
(** * What a sent file and a missing ffmpeg mean *)
(* ================================================================== *)

Section Outcomes.

(** What is behind a sent file. *)
Lemma embed_sends (T : tools) (req : request) (w : world)
    (p : nat) (name : str) :
  fst (embed T req w) = Ok (SendFile p name) ->
  Reader.accepted req
  /\ save_raises T = None
  /\ FFMPEG T <> None
  /\ (exists input stderr, run_ffmpeg T input = Ok (0%Z, stderr))
  /\ send_file_raises T = None
  /\ (exists csv_text raw,
        csv req = Some csv_text /\ author_raw csv_text = Some raw)
  /\ p = S (S (fresh w))
  /\ p ∈ files (snd (embed T req w)).
Proof.
  destruct (embed_cases T req w)
    as [E|(c & nm & csv_text & Ha & Hc
           & [(e & Hin & E)|[(e & Hr & E)|(Hin & Hs & Hogg)]])].
  - rewrite E. discriminate.
  - rewrite E. discriminate.
  - rewrite E. discriminate.
  - rewrite (embed_entered T req w c nm csv_text Ha Hc Hin Hs Hogg).
    unfold try_finally, try_except.
    match goal with
    | |- context [embed_try ?a ?b ?c ?d ?e ?f ?g ?w2] =>
        destruct (embed_try a b c d e f g w2) as [[r|e'] w3] eqn:Htry
    end.
    + apply embed_try_ok in Htry.
      destruct Htry as (-> & -> & Hff & Hrun & Hsend & Hraw & _).
      match goal with
      | |- context [embed_finally ?t ?w3] =>
          pose proof (embed_finally_returns t w3) as Hf;
          destruct (embed_finally_only t w3) as [Hsub _];
          destruct (embed_finally t w3) as [[u|e'] w4]
      end; cbn [fst snd fresh files] in *; [|discriminate].
      intros H. injection H as <- _.
      split; [split; [now exists c, nm | now exists csv_text]|].
      repeat split; try assumption.
      * destruct Hraw as (raw & Hraw). now exists csv_text, raw.
      * apply Hsub. apply elem_of_difference. split.
        -- apply elem_of_union_l. now apply elem_of_singleton.
        -- rewrite elem_of_singleton. lia.
    + unfold ret.
      match goal with
      | |- context [embed_finally ?t ?w3] =>
          pose proof (embed_finally_returns t w3) as Hf;
          destruct (embed_finally t w3) as [[u|e''] w4]
      end; cbn [fst] in *; discriminate.
Qed.



(** X21: without ffmpeg the handler never sends a file, whatever the
    request and the outcome of the other calls. *)
Theorem embed_without_ffmpeg_never_sends (T : tools) (req : request)
    (w : world) (p : nat) (name : str) :
  FFMPEG T = None -> fst (embed T req w) <> Ok (SendFile p name).
Proof.
  intros Hff H. apply embed_sends in H. destruct H as (_ & _ & H & _).
  now apply H.
Qed.

Lemma embed_without_ffmpeg_never_sends_witness :
  FFMPEG no_ffmpeg = None
  /\ fst (embed no_ffmpeg a_request empty_world)
     <> Ok (SendFile 2 (py "song_glyphed.ogg")).
Proof.
  split; [reflexivity|].
  exact (embed_without_ffmpeg_never_sends no_ffmpeg a_request empty_world
           2 (py "song_glyphed.ogg") eq_refl).
Defined.

(** X22: when the try block is entered (both temporary files made, the
    upload saved), the upload has to be transcoded (it is not Opus, or
    its name does not end in .ogg) and ffmpeg is not installed, the
    answer is the status 500 with the text of [transcode_to_ogg_opus]:
    Embed failed: ffmpeg not found; please install ffmpeg. *)
Theorem embed_transcode_without_ffmpeg (T : tools) (req : request)
    (w : world) (c : char) (name csv_text : str) :
  audio req = Some (c :: name) -> csv req = Some csv_text ->
  tmp_in_raises T (snd (secure_splitext T (c :: name))) = None ->
  save_raises T = None -> tmp_ogg_raises T = None ->
  FFMPEG T = None ->
  Reader.need_transcode T (snd (secure_splitext T (c :: name))) = true ->
  fst (embed T req w)
  = Ok (Abort 500
          (py "Embed failed: ffmpeg not found; please install ffmpeg")).
Proof.
  intros Ha Hc Hin Hs Hogg Hff Hnt.
  rewrite (embed_entered T req w c name csv_text Ha Hc Hin Hs Hogg).
  unfold try_finally, try_except, embed_try. cbv zeta.
  unfold Reader.need_transcode in Hnt. rewrite Hnt.
  unfold bind at 1. unfold transcode_to_ogg_opus. rewrite Hff.
  unfold raise, ret.
  match goal with
  | |- context [embed_finally ?t ?w3] =>
      pose proof (embed_finally_returns t w3) as Hf;
      destruct (embed_finally t w3) as [[u|e''] w4]
  end; cbn [fst] in *; [reflexivity | discriminate].
Qed.

Lemma embed_transcode_without_ffmpeg_witness :
  audio a_request = Some (115 :: py "ong.ogg")
  /\ csv a_request = Some (py "1,2,3")
  /\ tmp_in_raises no_ffmpeg
       (snd (secure_splitext no_ffmpeg (115 :: py "ong.ogg"))) = None
  /\ save_raises no_ffmpeg = None /\ tmp_ogg_raises no_ffmpeg = None
  /\ FFMPEG no_ffmpeg = None
  /\ Reader.need_transcode no_ffmpeg
       (snd (secure_splitext no_ffmpeg (115 :: py "ong.ogg"))) = true
  /\ fst (embed no_ffmpeg a_request empty_world)
     = Ok (Abort 500
             (py "Embed failed: ffmpeg not found; please install ffmpeg")).
Proof.
  repeat (split; [reflexivity|]).
  exact (embed_transcode_without_ffmpeg no_ffmpeg a_request empty_world
           115 (py "ong.ogg") (py "1,2,3")
           eq_refl eq_refl eq_refl eq_refl eq_refl eq_refl eq_refl).
Defined.

(** X23: for every request that passes the check and enters the try
    block (both temporary files made, the upload saved), on every path
    through the try block the temporary file of the upload is deleted
    and the intermediate audio file is not: it exists when the handler
    is done. *)
Theorem embed_upload_deleted_audio_left (T : tools) (req : request)
    (w : world) (c : char) (name csv_text : str) :
  audio req = Some (c :: name) -> csv req = Some csv_text ->
  tmp_in_raises T (snd (secure_splitext T (c :: name))) = None ->
  save_raises T = None -> tmp_ogg_raises T = None ->
  (fresh w ∉ files (snd (embed T req w)))
  /\ (S (fresh w) ∈ files (snd (embed T req w))).
Proof. apply embed_keeps_tmp_ogg. Qed.

Lemma embed_upload_deleted_audio_left_witness :
  audio a_request = Some (115 :: py "ong.ogg")
  /\ csv a_request = Some (py "1,2,3")
  /\ tmp_in_raises no_ffmpeg
       (snd (secure_splitext no_ffmpeg (115 :: py "ong.ogg"))) = None
  /\ save_raises no_ffmpeg = None /\ tmp_ogg_raises no_ffmpeg = None
  /\ (fresh empty_world ∉ files (snd (embed no_ffmpeg a_request empty_world)))
  /\ (S (fresh empty_world)
      ∈ files (snd (embed no_ffmpeg a_request empty_world))).
Proof.
  repeat (split; [reflexivity|]).
  exact (embed_upload_deleted_audio_left no_ffmpeg a_request empty_world
           115 (py "ong.ogg") (py "1,2,3")
           eq_refl eq_refl eq_refl eq_refl eq_refl).
Defined.

(** X24: the handler deletes no file but the temporary file of its own
    upload: every file that existed before the request exists after it,
    whatever the request and the outcome of the calls. *)
Theorem embed_deletes_nothing_else (T : tools) (req : request)
    (w : world) :
  fresh w ∉ files w -> files w ⊆ files (snd (embed T req w)).
Proof.
  intros Hfresh.
  destruct (embed_cases T req w)
    as [E|(c & nm & csv_text & Ha & Hc
           & [(e & Hin & E)|[(e & Hr & E)|(Hin & Hs & Hogg)]])].
  - rewrite E. reflexivity.
  - rewrite E. reflexivity.
  - rewrite E. cbn [snd files]. apply union_subseteq_r.
  - rewrite (embed_entered T req w c nm csv_text Ha Hc Hin Hs Hogg).
    unfold try_finally.
    match goal with
    | |- context [try_except ?m ?h ?w2] =>
        pose proof (keeps_try_except m h
                      (embed_try_keeps _ _ _ _ _ _ _)
                      (fun e => keeps_ret _) w2) as [Hsub _];
        destruct (try_except m h w2) as [r w3]
    end.
    cbn [snd files] in Hsub.
    destruct (embed_finally_only (fresh w) w3) as [Hfin _].
    destruct (embed_finally (fresh w) w3) as [[u|e] w4];
      cbn [snd] in *; intros x Hx; apply Hfin;
      apply elem_of_difference;
      (split; [apply Hsub; do 2 apply elem_of_union_r; exact Hx
              | rewrite elem_of_singleton; intros ->; contradiction]).
Qed.

Lemma embed_deletes_nothing_else_witness :
  (fresh (World {[ 0%nat ]} 1) ∉ files (World {[ 0%nat ]} 1))
  /\ (files (World {[ 0%nat ]} 1)
      ⊆ files (snd (embed all_fine a_request (World {[ 0%nat ]} 1)))).
Proof.
  assert (H : fresh (World {[ 0%nat ]} 1) ∉ files (World {[ 0%nat ]} 1)).
  { cbn [fresh files]. rewrite elem_of_singleton. discriminate. }
  split; [exact H|].
  exact (embed_deletes_nothing_else all_fine a_request _ H).
Defined.

End Outcomes.

(* ================================================================== *)
(** * The pipeline as a whole *)
(* ================================================================== *)

Section Pipeline.

Import Base64.

Lemma metadata_keys_plain (title author_b64 custom1_b64 : str) :
  Forall (fun kv => Reader.plain_key (fst kv))
    (metadata_of title author_b64 custom1_b64).
Proof.
  unfold metadata_of.
  repeat (constructor;
          [cbn [fst]; vm_compute; repeat constructor; discriminate|]).
  constructor.
Qed.

(** X25: the two payloads survive the document: for every title and
    every two byte sequences, reading the document built from the six
    tags gives the six tags back in their order (TITLE, ALBUM, AUTHOR,
    COMPOSER, CUSTOM1, CUSTOM2) with their values, and the AUTHOR and
    CUSTOM1 values decode to the two byte sequences. *)
Theorem tags_read_back (title : str) (author custom1 : bytes) :
  exists author_b64 custom1_b64 : str,
    _b64_strip_and_chunk author = Some author_b64
    /\ _b64_strip_and_chunk custom1 = Some custom1_b64
    /\ Reader.read_document
         (ffmeta_content (metadata_of title author_b64 custom1_b64))
       = metadata_of title author_b64 custom1_b64
    /\ Reader.decode_block author_b64 = Some author
    /\ Reader.decode_block custom1_b64 = Some custom1.
Proof.
  eexists _, _.
  split; [apply chunk_is_parts|]. split; [apply chunk_is_parts|].
  split; [apply read_document_entries; apply metadata_keys_plain|].
  split; apply decode_chunks.
Qed.

Lemma scalar_ascii (c : char) : c < 128 -> Reader.is_scalar c = true.
Proof.
  intros H. unfold Reader.is_scalar.
  assert (Hlt : (c <? 55296) = true) by (apply N.ltb_lt; lia).
  now rewrite Hlt.
Qed.

Lemma escape_chars (P : char -> Prop) (v : str) :
  Forall P v -> P BACKSLASH -> Forall P (_escape_ffmeta v).
Proof.
  intros Hv Hb. rewrite escape_one_pass.
  induction Hv as [|c v Hc Hv IH]; [constructor|].
  rewrite one_pass_cons. apply Forall_app. split; [|exact IH].
  destruct (Spec.special c); now repeat constructor.
Qed.

(** The characters of a document: its keys, its escaped values, the
    header, the equals signs and the newlines. *)
Lemma content_chars (P : char -> Prop) (metadata : items) :
  Forall P FFMETADATA1 -> P LF -> P EQUALS -> P BACKSLASH ->
  Forall (fun kv => Forall P (fst kv) /\ Forall P (snd kv)) metadata ->
  Forall P (ffmeta_content metadata).
Proof.
  intros Hh Hlf Heq Hb Hm. unfold ffmeta_content.
  apply Forall_app. split; [|now repeat constructor].
  apply join_all; [now repeat constructor|].
  rewrite ffmeta_lines_map. constructor; [exact Hh|].
  apply Forall_map. eapply List.Forall_impl; [|exact Hm].
  intros [k v] [Hk Hv]. unfold Spec.entry_line. cbn [fst snd] in *.
  apply Forall_app. split; [exact Hk|].
  apply Forall_app. split; [now repeat constructor|].
  now apply escape_chars.
Qed.

Lemma block_scalar (B : bytes) :
  exists block : str,
    _b64_strip_and_chunk B = Some block
    /\ Forall (fun c => Reader.is_scalar c = true) block.
Proof.
  eexists. split; [apply chunk_is_parts|].
  apply block_chars; [reflexivity|].
  intros i Hi. apply scalar_ascii.
  now destruct (alphabet_char i Hi) as (_ & H & _).
Qed.

Lemma encode_utf8_scalar (s : str) :
  Forall (fun c => Reader.is_scalar c = true) s ->
  exists b, Py.encode_utf8 s = Some b.
Proof.
  intros H. destruct (Py.encode_utf8 s) as [b|] eqn:E; [now exists b|].
  apply encode_utf8_none in E. apply List.Exists_exists in E.
  destruct E as (c & Hc & Hns). rewrite List.Forall_forall in H.
  rewrite (H c Hc) in Hns. discriminate.
Qed.

Lemma bind_run {A B} (m : M A) (k : A -> M B) (w w1 : world) (a : A) :
  m w = (Ok a, w1) -> bind m k w = k a w1.
Proof. intros H. unfold bind. now rewrite H. Qed.

(** The encoding steps of the pipeline cannot fail on a csv text and
    a title without surrogates: the normalised text, the two blocks and
    the document have their bytes. *)
Lemma pipeline_encodes (T : tools) (title csv_text : str) :
  Forall (fun d => Reader.is_scalar d = true) csv_text ->
  Forall (fun d => Reader.is_scalar d = true) title ->
  exists (raw : bytes) (author_b64 custom1_b64 : str) (input : bytes),
    author_raw csv_text = Some raw
    /\ _b64_strip_and_chunk (zlib_compress T raw) = Some author_b64
    /\ _b64_strip_and_chunk (zlib_compress T []) = Some custom1_b64
    /\ Py.encode_utf8
         (ffmeta_content (metadata_of title author_b64 custom1_b64))
       = Some input.
Proof.
  intros Hcsv Htitle.
  destruct (encode_utf8_scalar (norm_text csv_text)) as (raw & Hraw).
  { apply norm_text_chars; [exact Hcsv | reflexivity..]. }
  destruct (block_scalar (zlib_compress T raw)) as (a & Ha & Hsa).
  destruct (block_scalar (zlib_compress T [])) as (c & Hc & Hsc).
  destruct (encode_utf8_scalar (ffmeta_content (metadata_of title a c)))
    as (input & Hinput).
  { apply content_chars; try reflexivity.
    - repeat constructor.
    - unfold metadata_of.
      repeat (constructor;
              [cbn [fst snd]; split;
               try assumption; repeat constructor|]).
      constructor. }
  now exists raw, a, c, input.
Qed.

(** The try block up to the run of ffmpeg: when the steps before it
    succeed, its result is decided by the outcome of the run on the
    bytes of the document. *)
Lemma embed_try_runs (T : tools) (title csv_text base ext path : str)
    (tmp_in tmp_ogg : nat) (w : world)
    (raw : bytes) (author_b64 custom1_b64 : str) (input : bytes) :
  FFMPEG T = Some path -> check_call_raises T = None ->
  copyfile_raises T = None -> out_path_raises T = None ->
  author_raw csv_text = Some raw ->
  _b64_strip_and_chunk (zlib_compress T raw) = Some author_b64 ->
  _b64_strip_and_chunk (zlib_compress T []) = Some custom1_b64 ->
  Py.encode_utf8
    (ffmeta_content (metadata_of title author_b64 custom1_b64))
  = Some input ->
  fst (try_except
         (embed_try T title csv_text base ext tmp_in tmp_ogg)
         (fun e => ret (Abort 500 (py "Embed failed: " ++ e))) w)
  = Ok (Reader.answer_after_run T (fresh w) base (run_ffmpeg T input)).
Proof.
  intros Hff Hcheck Hcopy Hout Hraw Ha Hc Hinput.
  unfold try_except, embed_try. cbv zeta.
  rewrite (bind_run _ _ w w tt).
  2:{ unfold transcode_to_ogg_opus. rewrite Hff, Hcheck, Hcopy.
      now destruct (negb _ || negb _). }
  rewrite Hraw. cbn [or_raise]. rewrite (bind_run _ _ w w raw eq_refl).
  rewrite Ha. cbn [or_raise].
  rewrite (bind_run _ _ w w author_b64 eq_refl).
  rewrite Hc. cbn [or_raise].
  rewrite (bind_run _ _ w w custom1_b64 eq_refl).
  rewrite Hout.
  rewrite (bind_run (NamedTemporaryFile None) _ w _ (fresh w) eq_refl).
  rewrite Hinput. cbn [or_raise]. rewrite (bind_run _ _ _ _ input eq_refl).
  rewrite Hff. unfold Reader.answer_after_run.
  destruct (run_ffmpeg T input) as [[returncode stderr]|e];
    [|reflexivity].
  destruct (returncode =? 0)%Z; cbn [negb]; [|reflexivity].
  unfold bind, call. now destruct (send_file_raises T).
Qed.

(** The handler up to the run of ffmpeg. *)
Lemma embed_runs (T : tools) (req : request) (w : world)
    (c : char) (name csv_text path : str)
    (raw : bytes) (author_b64 custom1_b64 : str) (input : bytes) :
  audio req = Some (c :: name) -> csv req = Some csv_text ->
  tmp_in_raises T (snd (secure_splitext T (c :: name))) = None ->
  save_raises T = None -> tmp_ogg_raises T = None ->
  FFMPEG T = Some path -> check_call_raises T = None ->
  copyfile_raises T = None -> out_path_raises T = None ->
  author_raw csv_text = Some raw ->
  _b64_strip_and_chunk (zlib_compress T raw) = Some author_b64 ->
  _b64_strip_and_chunk (zlib_compress T []) = Some custom1_b64 ->
  Py.encode_utf8
    (ffmeta_content
       (metadata_of (title_of (title req)) author_b64 custom1_b64))
  = Some input ->
  fst (embed T req w)
  = Ok (Reader.answer_after_run T (S (S (fresh w)))
          (fst (secure_splitext T (c :: name))) (run_ffmpeg T input)).
Proof.
  intros Ha Hc Hin Hs Hogg Hff Hcheck Hcopy Hout Hraw Hab Hcb Hinput.
  rewrite (embed_entered T req w c name csv_text Ha Hc Hin Hs Hogg).
  unfold try_finally.
  match goal with
  | |- context [try_except (embed_try ?t ?ti ?cs ?b ?e ?f ?g) ?h ?w2] =>
      pose proof (embed_try_runs t ti cs b e path f g w2
                    raw author_b64 custom1_b64 input
                    Hff Hcheck Hcopy Hout Hraw Hab Hcb Hinput) as Hrun;
      destruct (try_except (embed_try t ti cs b e f g) h w2) as [r w3]
  end.
  cbn [fst fresh] in Hrun. subst r.
  pose proof (embed_finally_returns (fresh w) w3) as Hf.
  destruct (embed_finally (fresh w) w3) as [[u|e] w4];
    cbn [fst] in *; [reflexivity | discriminate].
Qed.

(** X26: when the request has its audio file and csv text, the title
    and the csv text hold no surrogate, the three temporary files can
    be made, ffmpeg is installed, the save, the transcoding or copy and
    the sending do not raise, and the tag-writing run of ffmpeg on the
    bytes of the document returns 0, the handler sends the output file:
    its third temporary file, under the name of the upload without its
    extension followed by _glyphed.ogg; no encoding step of the
    pipeline can fail on such text. *)
Theorem embed_succeeds (T : tools) (req : request) (w : world)
    (c : char) (name csv_text path : str) :
  audio req = Some (c :: name) -> csv req = Some csv_text ->
  tmp_in_raises T (snd (secure_splitext T (c :: name))) = None ->
  save_raises T = None -> tmp_ogg_raises T = None ->
  FFMPEG T = Some path ->
  check_call_raises T = None -> copyfile_raises T = None ->
  out_path_raises T = None -> send_file_raises T = None ->
  (forall (raw : bytes) (author_b64 custom1_b64 : str) (input : bytes),
      author_raw csv_text = Some raw ->
      _b64_strip_and_chunk (zlib_compress T raw) = Some author_b64 ->
      _b64_strip_and_chunk (zlib_compress T []) = Some custom1_b64 ->
      Py.encode_utf8
        (ffmeta_content
           (metadata_of (title_of (title req)) author_b64 custom1_b64))
      = Some input ->
      exists stderr, run_ffmpeg T input = Ok (0%Z, stderr)) ->
  Forall (fun d => Reader.is_scalar d = true) csv_text ->
  Forall (fun d => Reader.is_scalar d = true) (title_of (title req)) ->
  fst (embed T req w)
  = Ok (SendFile (S (S (fresh w)))
          (fst (secure_splitext T (c :: name)) ++ py "_glyphed.ogg")).
Proof.
  intros Ha Hc Hin Hs Hogg Hff Hcheck Hcopy Hout Hsend Hrun Hcsv Htitle.
  destruct (pipeline_encodes T _ _ Hcsv Htitle)
    as (raw & a & b & input & Hraw & Hab & Hcb & Hinput).
  rewrite (embed_runs T req w c name csv_text path raw a b input
             Ha Hc Hin Hs Hogg Hff Hcheck Hcopy Hout Hraw Hab Hcb Hinput).
  destruct (Hrun raw a b input Hraw Hab Hcb Hinput) as (stderr & ->).
  unfold Reader.answer_after_run. cbn [Z.eqb]. now rewrite Hsend.
Qed.

Lemma embed_succeeds_witness :
  audio a_request = Some (115 :: py "ong.ogg")
  /\ csv a_request = Some (py "1,2,3")
  /\ tmp_in_raises all_fine
       (snd (secure_splitext all_fine (115 :: py "ong.ogg"))) = None
  /\ save_raises all_fine = None
  /\ tmp_ogg_raises all_fine = None
  /\ FFMPEG all_fine = Some (py "/usr/bin/ffmpeg")
  /\ check_call_raises all_fine = None
  /\ copyfile_raises all_fine = None
  /\ out_path_raises all_fine = None
  /\ send_file_raises all_fine = None
  /\ (forall input, exists stderr,
        run_ffmpeg all_fine input = Ok (0%Z, stderr))
  /\ Forall (fun d => Reader.is_scalar d = true) (py "1,2,3")
  /\ Forall (fun d => Reader.is_scalar d = true)
       (title_of (title a_request))
  /\ fst (embed all_fine a_request empty_world)
     = Ok (SendFile 2 (py "song_glyphed.ogg")).
Proof.
  assert (Hrun : forall input, exists stderr,
             run_ffmpeg all_fine input = Ok (0%Z, stderr))
    by (intros input; now exists []).
  assert (Hcsv : Forall (fun d => Reader.is_scalar d = true) (py "1,2,3"))
    by (repeat constructor).
  assert (Htitle : Forall (fun d => Reader.is_scalar d = true)
                     (title_of (title a_request)))
    by (repeat constructor).
  repeat (split; [reflexivity|]).
  split; [exact Hrun|]. split; [exact Hcsv|]. split; [exact Htitle|].
  exact (embed_succeeds all_fine a_request empty_world
           115 (py "ong.ogg") (py "1,2,3") (py "/usr/bin/ffmpeg")
           eq_refl eq_refl eq_refl eq_refl eq_refl eq_refl eq_refl
           eq_refl eq_refl eq_refl
           (fun raw a b input _ _ _ _ => Hrun input) Hcsv Htitle).
Defined.

End Pipeline.

(* ================================================================== *)
(** * The title tag *)
(* ================================================================== *)

Section Title.

Lemma title_of_cases (form_title : option str) :
  title_of form_title
  = match form_title with
    | Some (d :: t) => d :: t
    | Some [] | None => py "Glyph"
    end.
Proof. now destruct form_title as [[|d t]|]. Qed.

(** C10: on a request that reaches the writing of the tags (audio file
    and csv text present, the temporary files made, the upload saved,
    the audio transcoded or copied, no surrogate in the csv text or the
    title), the handler runs the tag-writing ffmpeg on the bytes of the
    document whose TITLE value is Glyph when the title field is absent
    or empty and is the title as it is otherwise, and its answer is the
    one the outcome of that run decides; TITLE is the first entry of
    this document, after the header line, and its line is TITLE=
    followed by the escaped value. *)
Theorem title_default (T : tools) (req : request) (w : world)
    (c : char) (name csv_text path : str) :
  audio req = Some (c :: name) -> csv req = Some csv_text ->
  tmp_in_raises T (snd (secure_splitext T (c :: name))) = None ->
  save_raises T = None -> tmp_ogg_raises T = None ->
  FFMPEG T = Some path ->
  check_call_raises T = None -> copyfile_raises T = None ->
  out_path_raises T = None ->
  Forall (fun d => Reader.is_scalar d = true) csv_text ->
  (forall t, title req = Some t ->
             Forall (fun d => Reader.is_scalar d = true) t) ->
  exists (tag : str) (raw : bytes) (author_b64 custom1_b64 : str)
         (input : bytes),
    tag = match title req with
          | Some (d :: t) => d :: t
          | Some [] | None => py "Glyph"
          end
    /\ author_raw csv_text = Some raw
    /\ _b64_strip_and_chunk (zlib_compress T raw) = Some author_b64
    /\ _b64_strip_and_chunk (zlib_compress T []) = Some custom1_b64
    /\ lookup_item (py "TITLE") (metadata_of tag author_b64 custom1_b64)
       = Some tag
    /\ nth 1 (ffmeta_lines (metadata_of tag author_b64 custom1_b64)) []
       = py "TITLE=" ++ _escape_ffmeta tag
    /\ Py.encode_utf8
         (ffmeta_content (metadata_of tag author_b64 custom1_b64))
       = Some input
    /\ fst (embed T req w)
       = Ok (Reader.answer_after_run T (S (S (fresh w)))
               (fst (secure_splitext T (c :: name)))
               (run_ffmpeg T input)).
Proof.
  intros Ha Hc Hin Hs Hogg Hff Hcheck Hcopy Hout Hcsv Htitle.
  assert (Htag : Forall (fun d => Reader.is_scalar d = true)
                   (title_of (title req))).
  { rewrite title_of_cases. destruct (title req) as [[|d t]|] eqn:Et.
    - repeat constructor.
    - now apply Htitle.
    - repeat constructor. }
  destruct (pipeline_encodes T _ _ Hcsv Htag)
    as (raw & a & b & input & Hraw & Hab & Hcb & Hinput).
  exists (title_of (title req)), raw, a, b, input.
  split; [apply title_of_cases|].
  split; [exact Hraw|]. split; [exact Hab|]. split; [exact Hcb|].
  split; [reflexivity|].
  split; [rewrite ffmeta_lines_map; reflexivity|].
  split; [exact Hinput|].
  exact (embed_runs T req w c name csv_text path raw a b input
           Ha Hc Hin Hs Hogg Hff Hcheck Hcopy Hout Hraw Hab Hcb Hinput).
Qed.

Lemma title_default_witness :
  audio (Request (Some (py "song.ogg")) (Some (py "1,2,3")) (Some []))
  = Some (115 :: py "ong.ogg")
  /\ csv (Request (Some (py "song.ogg")) (Some (py "1,2,3")) (Some []))
     = Some (py "1,2,3")
  /\ tmp_in_raises all_fine
       (snd (secure_splitext all_fine (115 :: py "ong.ogg"))) = None
  /\ save_raises all_fine = None /\ tmp_ogg_raises all_fine = None
  /\ FFMPEG all_fine = Some (py "/usr/bin/ffmpeg")
  /\ check_call_raises all_fine = None
  /\ copyfile_raises all_fine = None
  /\ out_path_raises all_fine = None
  /\ Forall (fun d => Reader.is_scalar d = true) (py "1,2,3")
  /\ (forall t, title (Request (Some (py "song.ogg"))
                         (Some (py "1,2,3")) (Some [])) = Some t ->
                Forall (fun d => Reader.is_scalar d = true) t)
  /\ exists (author_b64 custom1_b64 : str) (input : bytes),
       Py.encode_utf8
         (ffmeta_content (metadata_of (py "Glyph") author_b64 custom1_b64))
       = Some input
       /\ fst (embed all_fine
                 (Request (Some (py "song.ogg")) (Some (py "1,2,3"))
                    (Some []))
                 empty_world)
          = Ok (Reader.answer_after_run all_fine 2 (py "song")
                  (run_ffmpeg all_fine input)).
Proof.
  assert (Hcsv : Forall (fun d => Reader.is_scalar d = true) (py "1,2,3"))
    by (repeat constructor).
  assert (Htitle : forall t,
             title (Request (Some (py "song.ogg"))
                      (Some (py "1,2,3")) (Some [])) = Some t ->
             Forall (fun d => Reader.is_scalar d = true) t).
  { intros t Ht. injection Ht as <-. constructor. }
  repeat (split; [reflexivity|]).
  split; [exact Hcsv|]. split; [exact Htitle|].
  destruct (title_default all_fine
              (Request (Some (py "song.ogg")) (Some (py "1,2,3")) (Some []))
              empty_world 115 (py "ong.ogg") (py "1,2,3")
              (py "/usr/bin/ffmpeg")
              eq_refl eq_refl eq_refl eq_refl eq_refl eq_refl eq_refl
              eq_refl eq_refl Hcsv Htitle)
    as (tag & raw & a & b & input & -> & _ & _ & _ & _ & _ & Hinput & Hrun).
  exists a, b, input. split; [exact Hinput | exact Hrun].
Defined.

End Title.
